(** * moztelemetry.histogram: a shallow embedding and its properties

    The development follows [src/moztelemetry/histogram.py]: the class
    [Histogram] with its constructor, [get_value], [percentile] and [__add__].

    Modelling conventions.
    - Numbers.  The counts of a histogram are the numbers of a pandas column
      (numpy [int64] or [float64]); the percentile argument is a Python number.
      The source never says which: it adds, subtracts, multiplies, divides,
      compares and sums whatever it is given.  The functions below are
      therefore written over a class [Arithmetic] of these operations, and
      the statements that only depend on how the source combines them hold
      for every instance.  Two instances are given.  [numpy] is the machine
      arithmetic: [int64] with wrap-around and binary64 floats (Rocq's
      primitive floats) with the promotion of integers to floats; every
      sample is evaluated in it.  [Exact] is the arithmetic of the rationals
      extended with the infinities and not-a-number, without rounding; it
      is what a statement about the order of percentiles can refer to.
    - Exceptions.  Every fallible function returns a [result]; the error names
      the Python exception class.
    - pandas.  A [pd.Series] is an association list of (label, value) pairs in
      index order; the labels are the integers of an [Int64Index].  Only the
      pandas operations the source calls are modelled.  A column keeps the
      numbers it was given: the conversion of a column to one dtype is the
      identity on integers below 2^53 in magnitude and is left out.
    - The schema resolver ([requests] + [histogram_tools]) is not part of the
      repository; it is a parameter of the section that needs it. *)

From Stdlib Require Import Ascii String QArith Lqa.
From Stdlib Require Floats Uint63.
From stdpp Require Import gmap strings list sorting.

Set Default Proof Using "Type".

(** ** Exceptions *)

Inductive exn :=
| AssertionError
| LookupError      (* KeyError and IndexError *)
| ValueError
| RequestError.    (* anything raised while fetching or parsing the schema *)

Inductive result (A : Type) :=
| Ok (a : A)
| Raise (e : exn).
Arguments Ok {A} a.
Arguments Raise {A} e.

#[global] Instance result_ret : MRet result := fun A a => Ok a.
#[global] Instance result_bind : MBind result := fun A B f m =>
  match m with Ok a => f a | Raise e => Raise e end.
#[global] Instance result_fmap : FMap result := fun A B f m =>
  match m with Ok a => Ok (f a) | Raise e => Raise e end.

Definition assert (b : bool) : result unit :=
  if b then Ok tt else Raise AssertionError.

Definition of_option {A} (e : exn) (o : option A) : result A :=
  match o with Some a => Ok a | None => Raise e end.

(** ** Numbers *)

(** The operations the source applies to counts and percentiles.
    - [of_Z]: an integer of the program (a literal of the source, a boundary
      of the index) as a number;
    - [NaN]: [float('NaN')]; [is_nan]: what [fillna] and [sum] test;
    - [nadd], [nsub], [nmul]: [+], [-], [*]; [ndiv]: [/], which is true
      division in this module ([from __future__ import division]);
    - [nle], [neqb]: [<=] and [==];
    - [nsum]: the reduction behind [Series.sum()].
    The three laws are the ones the statements on construction and on sums
    rest on. *)
Class Arithmetic (num : Type) := {
  of_Z : Z → num;
  NaN : num;
  is_nan : num → bool;
  nadd : num → num → num;
  nsub : num → num → num;
  nmul : num → num → num;
  ndiv : num → num → num;
  nle : num → num → bool;
  neqb : num → num → bool;
  nsum : list num → num;
  nadd_comm : ∀ x y, nadd x y = nadd y x;
  is_nan_NaN : is_nan NaN = true;
  is_nan_zero : is_nan (of_Z 0) = false;
}.

Section Signs.

Context {num : Type} `{!Arithmetic num}.

(** [x == 0] *)
Definition is_zero (x : num) : bool := neqb x (of_Z 0).

(** [x < 0], as [x <= 0 and not x == 0] *)
Definition negative (x : num) : bool :=
  nle x (of_Z 0) && negb (neqb x (of_Z 0)).

(** [0 < x], as [0 <= x and not x == 0] *)
Definition positive (x : num) : bool :=
  nle (of_Z 0) x && negb (neqb x (of_Z 0)).

End Signs.

(** What IEEE 754 says of zero, of signs and of not-a-number, as far as
    [percentile] meets it on a histogram whose mass lies in one bucket.
    [inexact] singles out the results of true division and of the operations
    applied to such results (in numpy: the floats); subtracting a zero from
    one of them does not change how it compares with zero. *)
Class FloatingPoint (num : Type) `{!Arithmetic num} := {
  inexact : num → Prop;
  inexact_ndiv x y : inexact (ndiv x y);
  inexact_nmul x y : inexact x → inexact (nmul x y);
  inexact_nsub x y : inexact x → inexact (nsub x y);
  nan_unique x : is_nan x = true → x = NaN;
  nadd_nan x y : is_nan y = true → is_nan (nadd x y) = true;
  zero_div_zero w t z :
    is_zero t = true → is_zero z = true →
    is_nan (ndiv (nmul w t) z) = true;
  nsub_zero r z :
    inexact r → is_zero z = true →
    nle (nsub r z) (of_Z 0) = nle r (of_Z 0);
  not_negative x : nle (of_Z 0) x = true → negative x = false;
  fraction_sign p s :
    negative p = false → negative s = false →
    negative (nmul (ndiv p (of_Z 100)) s) = false;
  nsum_sign zeros c :
    Forall (λ z, is_zero z = true) zeros → negative c = false →
    negative (nsum (zeros ++ [c])) = false;
}.

(** The value of a 64-bit two's complement integer after an operation that
    overflows. *)
Definition wrap64 (z : Z) : Z := ((z + 2 ^ 63) mod 2 ^ 64 - 2 ^ 63)%Z.

(** [a - b] on two [numpy.int64], such as two labels of an index. *)
Definition int64_sub (a b : Z) : Z := wrap64 (a - b).

(** *** The arithmetic of numpy *)

Module numpy.

(** A scalar of a column: [int64 z] stands for the 64-bit integer
    [wrap64 z]. *)
Inductive num :=
| int64 (z : Z)
| float64 (f : PrimFloat.float).

(** [numpy.float64(z)] for an [int64]: the nearest float. *)
Definition astype_float (z : Z) : PrimFloat.float :=
  let w := wrap64 z in
  if (w =? - 2 ^ 63)%Z then
    PrimFloat.opp (PrimFloat.mul (PrimFloat.of_uint63 (Uint63.of_Z (2 ^ 62)))
                                 PrimFloat.two)
  else if (w <? 0)%Z then PrimFloat.opp (PrimFloat.of_uint63 (Uint63.of_Z (- w)))
  else PrimFloat.of_uint63 (Uint63.of_Z w).

(** The promotion of an operand that meets a float. *)
Definition to_float (x : num) : PrimFloat.float :=
  match x with
  | int64 z => astype_float z
  | float64 f => f
  end.

Definition isnan (x : num) : bool :=
  match x with
  | int64 _ => false
  | float64 f => negb (PrimFloat.eqb f f)
  end.

Definition add (x y : num) : num :=
  match x, y with
  | int64 a, int64 b => int64 (wrap64 (a + b))
  | _, _ => float64 (PrimFloat.add (to_float x) (to_float y))
  end.

Definition subtract (x y : num) : num :=
  match x, y with
  | int64 a, int64 b => int64 (wrap64 (a - b))
  | _, _ => float64 (PrimFloat.sub (to_float x) (to_float y))
  end.

Definition multiply (x y : num) : num :=
  match x, y with
  | int64 a, int64 b => int64 (wrap64 (a * b))
  | _, _ => float64 (PrimFloat.mul (to_float x) (to_float y))
  end.

(** True division yields a float, also on two integers; dividing by zero
    does not raise, it yields an infinity, or not-a-number for [0/0]. *)
Definition true_divide (x y : num) : num :=
  float64 (PrimFloat.div (to_float x) (to_float y)).

Definition less_equal (x y : num) : bool :=
  match x, y with
  | int64 a, int64 b => (wrap64 a <=? wrap64 b)%Z
  | _, _ => PrimFloat.leb (to_float x) (to_float y)
  end.

Definition equal (x y : num) : bool :=
  match x, y with
  | int64 a, int64 b => (wrap64 a =? wrap64 b)%Z
  | _, _ => PrimFloat.eqb (to_float x) (to_float y)
  end.

Definition is_int (x : num) : bool :=
  match x with int64 _ => true | float64 _ => false end.

Definition int_sum (l : list num) : Z :=
  foldr (λ x acc, match x with int64 z => z + acc | float64 _ => acc end)%Z
        0%Z l.

(** The sum of a float column skips not-a-number and adds from left to
    right, which is numpy's order for a short column (for eight floats and
    more the order depends on the version of numpy and of pandas); no
    general statement below depends on the order. *)
Definition float_sum (l : list num) : PrimFloat.float :=
  foldl (λ acc x, if isnan x then acc else PrimFloat.add acc (to_float x))
        PrimFloat.zero l.

(** [Series.sum()]: an integer column is summed in [int64], any other one
    in [float64]. *)
Definition sum (l : list num) : num :=
  if forallb is_int l then int64 (wrap64 (int_sum l)) else float64 (float_sum l).

(** A float that is a zero; a float that is not negative: a zero, a positive
    number, the positive infinity, or not-a-number. *)
Definition sf_zero (x : Floats.SpecFloat.spec_float) : Prop :=
  match x with Floats.SpecFloat.S754_zero _ => True | _ => False end.

Definition sf_notneg (x : Floats.SpecFloat.spec_float) : Prop :=
  match x with
  | Floats.SpecFloat.S754_zero _ | Floats.SpecFloat.S754_nan => True
  | Floats.SpecFloat.S754_infinity s
  | Floats.SpecFloat.S754_finite s _ _ => s = false
  end.

Lemma float_add_comm x y : PrimFloat.add x y = PrimFloat.add y x.
Proof.
  apply Floats.FloatAxioms.Prim2SF_inj. rewrite !Floats.FloatAxioms.add_spec.
  destruct (Floats.FloatOps.Prim2SF x) as [[]|[]| |sx mx ex],
           (Floats.FloatOps.Prim2SF y) as [[]|[]| |sy my ey];
    try reflexivity.
  unfold Floats.FloatAxioms.SF64add, Floats.SpecFloat.SFadd.
  by rewrite (Z.min_comm ey ex), Z.add_comm.
Qed.

Lemma add_comm x y : add x y = add y x.
Proof.
  destruct x as [a|f], y as [b|g]; simpl; f_equal;
    (by rewrite Z.add_comm) || apply float_add_comm.
Qed.

End numpy.

#[global] Instance numpy_arithmetic : Arithmetic numpy.num := {|
  of_Z := numpy.int64;
  NaN := numpy.float64 PrimFloat.nan;
  is_nan := numpy.isnan;
  nadd := numpy.add;
  nsub := numpy.subtract;
  nmul := numpy.multiply;
  ndiv := numpy.true_divide;
  nle := numpy.less_equal;
  neqb := numpy.equal;
  nsum := numpy.sum;
  nadd_comm := numpy.add_comm;
  is_nan_NaN := eq_refl;
  is_nan_zero := eq_refl;
|}.

(** *** The arithmetic without rounding *)

Module Exact.

(** The rationals with the two infinities and not-a-number. *)
Inductive num :=
| Fin (q : Q)
| PInf
| NInf
| Nan.

Definition qsign (q : Q) : comparison := (Qnum q ?= 0)%Z.

Definition isnan (x : num) : bool :=
  match x with Nan => true | _ => false end.

Definition add (x y : num) : num :=
  match x, y with
  | Nan, _ | _, Nan => Nan
  | Fin a, Fin b => Fin (a + b)
  | PInf, NInf | NInf, PInf => Nan
  | PInf, _ | _, PInf => PInf
  | NInf, _ | _, NInf => NInf
  end.

Definition sub (x y : num) : num :=
  match x, y with
  | Nan, _ | _, Nan => Nan
  | Fin a, Fin b => Fin (a - b)
  | PInf, PInf | NInf, NInf => Nan
  | PInf, _ | _, NInf => PInf
  | NInf, _ | _, PInf => NInf
  end.

(** The infinity with the sign of [s]; [0 * inf] is not-a-number. *)
Definition signed_inf (s : comparison) : num :=
  match s with Gt => PInf | Lt => NInf | Eq => Nan end.

Definition mul (x y : num) : num :=
  match x, y with
  | Nan, _ | _, Nan => Nan
  | Fin a, Fin b => Fin (a * b)
  | Fin a, PInf | PInf, Fin a => signed_inf (qsign a)
  | Fin a, NInf | NInf, Fin a => signed_inf (CompOpp (qsign a))
  | PInf, PInf | NInf, NInf => PInf
  | PInf, NInf | NInf, PInf => NInf
  end.

Definition div (x y : num) : num :=
  match x, y with
  | Nan, _ | _, Nan => Nan
  | Fin a, Fin b =>
      if Qeq_bool b 0 then signed_inf (qsign a) else Fin (a / b)
  | Fin _, (PInf | NInf) => Fin 0
  | PInf, Fin b => match qsign b with Lt => NInf | _ => PInf end
  | NInf, Fin b => match qsign b with Lt => PInf | _ => NInf end
  | (PInf | NInf), (PInf | NInf) => Nan
  end.

(** [x <= y]: false as soon as one side is not-a-number. *)
Definition le (x y : num) : bool :=
  match x, y with
  | Nan, _ | _, Nan => false
  | Fin a, Fin b => Qle_bool a b
  | NInf, _ | _, PInf => true
  | PInf, _ | _, NInf => false
  end.

Definition eqb (x y : num) : bool :=
  match x, y with
  | Fin a, Fin b => Qeq_bool a b
  | PInf, PInf | NInf, NInf => true
  | _, _ => false
  end.

(** The sum of a column: not-a-number is skipped. *)
Definition sum (l : list num) : num :=
  foldl (λ acc x, if isnan x then acc else add acc x) (Fin (inject_Z 0)) l.

(** The same number, up to the representation of the fraction. *)
Definition equiv (x y : num) : Prop :=
  match x, y with
  | Fin a, Fin b => (a == b)%Q
  | PInf, PInf | NInf, NInf | Nan, Nan => True
  | _, _ => False
  end.

(** Counts as the data model has them: numbers that are not negative. *)
Definition count (x : num) : Prop := ∃ q, x = Fin q ∧ (0 <= q)%Q.

Lemma add_commutative x y : add x y = add y x.
Proof.
  destruct x as [[n1 d1]| | |], y as [[n2 d2]| | |]; try done.
  unfold add, Qplus. simpl. f_equal. f_equal; [lia|apply Pos.mul_comm].
Qed.

End Exact.

#[global] Instance exact_arithmetic : Arithmetic Exact.num | 10 := {|
  of_Z z := Exact.Fin (inject_Z z);
  NaN := Exact.Nan;
  is_nan := Exact.isnan;
  nadd := Exact.add;
  nsub := Exact.sub;
  nmul := Exact.mul;
  ndiv := Exact.div;
  nle := Exact.le;
  neqb := Exact.eqb;
  nsum := Exact.sum;
  nadd_comm := Exact.add_commutative;
  is_nan_NaN := eq_refl;
  is_nan_zero := eq_refl;
|}.

(** The number a scalar of numpy stands for. *)
Definition numpy_exact (x : numpy.num) : Exact.num :=
  match x with
  | numpy.int64 z => Exact.Fin (inject_Z (wrap64 z))
  | numpy.float64 f =>
      match Floats.FloatOps.Prim2SF f with
      | Floats.SpecFloat.S754_zero _ => Exact.Fin 0
      | Floats.SpecFloat.S754_infinity s => if s then Exact.NInf else Exact.PInf
      | Floats.SpecFloat.S754_nan => Exact.Nan
      | Floats.SpecFloat.S754_finite s m e =>
          let v := (if s then Z.neg m else Z.pos m) in
          Exact.Fin match e with
                    | Z.neg k => Qmake v (2 ^ k)
                    | _ => inject_Z (v * 2 ^ e)
                    end
      end
  end.

(** ** The part of Python the source uses *)

(** The blanks that [int] skips around the digits, for byte strings and
    unicode strings alike. *)
Definition is_space (c : ascii) : bool :=
  let n := nat_of_ascii c in
  ((9 <=? n) && (n <=? 13) || (n =? 32))%nat.

Definition digit (c : ascii) : option Z :=
  let n := nat_of_ascii c in
  if ((48 <=? n) && (n <=? 57))%nat then Some (Z.of_nat (n - 48)) else None.

Fixpoint lstrip (s : string) : string :=
  match s with
  | String c s' => if is_space c then lstrip s' else s
  | EmptyString => EmptyString
  end.

Definition strip (s : string) : string :=
  String.rev (lstrip (String.rev (lstrip s))).

Fixpoint digits (acc : Z) (s : string) : option Z :=
  match s with
  | EmptyString => Some acc
  | String c s' => d ← digit c; digits (10 * acc + d)%Z s'
  end.

Definition unsigned (s : string) : option Z :=
  match s with
  | EmptyString => None
  | _ => digits 0 s
  end.

(** [int(s)] for a string, on the literals that every version of Python
    reads alike: surrounding blanks, an optional sign and at least one ASCII
    decimal digit.  On these [int] returns the integer; on any other string
    the function below raises [ValueError], as Python does except for the
    literals that only some versions or only unicode strings admit (digits of
    other scripts, underscores between digits, further blanks).  The
    statements below on sparse inputs are about inputs whose keys are all of
    the first sort. *)
Definition int (s : string) : result Z :=
  of_option ValueError
    match strip s with
    | String "-" ds => Z.opp <$> unsigned ds
    | String "+" ds => unsigned ds
    | ds => unsigned ds
    end.

(** [re.sub("^STARTUP_", "", name)] *)
Definition strip_startup (name : string) : string :=
  if String.prefix "STARTUP_" name
  then String.substring 8 (String.length name - 8) name
  else name.

(** [x[:-5]] *)
Definition drop_last5 {A} (x : list A) : list A := take (length x - 5) x.

(** ** The schema, as [histogram_tools] exposes it *)

Module histogram_tools.
Record Histogram := {
  kind : string;
  n_buckets : nat;
  ranges : list Z;
}.
End histogram_tools.

Definition default_revision : string :=
  "https://hg.mozilla.org/mozilla-central/rev/tip".

Definition percentile_kinds : list string :=
  ["exponential"; "linear"; "enumerated"; "boolean"].

(** A Series: its rows, in index order. *)
Abbreviation Series num := (list (Z * num)).

Section Model.

Context {num : Type} `{!Arithmetic num}.

(** ** The part of pandas the source uses *)

Definition index (s : Series num) : list Z := s.*1.
Definition values (s : Series num) : list num := s.*2.

(** [pd.Series(data, index=index)] for a list or an ndarray: positional; a
    one-element [data] is repeated along the index; any other length mismatch
    raises. *)
Definition Series_of_list (data : list num) (idx : list Z)
  : result (Series num) :=
  if decide (length data = length idx) then Ok (zip idx data)
  else match data with
       | [x] => Ok (zip idx (replicate (length idx) x))
       | _ => Raise ValueError
       end.

(** The value stored under label [l] (the first one, if there are several). *)
Definition at_label (l : Z) (s : Series num) : option num :=
  (λ r, r.2.2) <$> list_find (λ row, row.1 = l) s.

(** [s.reindex(idx)]: rows are matched by label; a label of [idx] absent from
    [s] gets [nan].  Identical indexes need no work; otherwise the labels of
    [s] must be unique. *)
Definition reindex (s : Series num) (idx : list Z) : result (Series num) :=
  if decide (index s = idx) then Ok s
  else if decide (NoDup (index s))
       then Ok ((λ l, (l, default NaN (at_label l s))) <$> idx)
       else Raise ValueError.

(** [pd.Series(entries, index=idx)] for a dict: every label is looked up in
    the dict, a missing one gets [nan]. *)
Definition Series_of_dict (entries : gmap Z num) (idx : list Z) : Series num :=
  (λ l, (l, default NaN (entries !! l))) <$> idx.

Definition fillna (v : num) (s : Series num) : Series num :=
  (λ row, (row.1, if is_nan row.2 then v else row.2)) <$> s.

(** [s.sum()]: the reduction of the column, as the arithmetic has it. *)
Definition sum (s : Series num) : num := nsum (values s).

(** What [s[key]] evaluates to. *)
Inductive item :=
| Scalar (x : num)
| Rows (s : Series num).

(** [s[l]] for an integer [l] on an integer index: a lookup by label. *)
Definition getitem (s : Series num) (l : Z) : result item :=
  match filter (λ row, row.1 = l) s with
  | [] => Raise LookupError
  | [row] => Ok (Scalar row.2)
  | rows => Ok (Rows rows)
  end.

(** ** class Histogram *)

Record Histogram := {
  definition : histogram_tools.Histogram;
  kind : string;
  name : string;
  buckets : Series num;
}.

(** The second argument of the constructor. *)
Inductive instance :=
| Dense (counts : list num)            (* a list or an ndarray *)
| DenseSeries (counts : Series num)    (* a pd.Series *)
| Mapping (fields : gmap string (list (string * num))).
    (* anything else: subscripted with "values"; the dict found there is given
       by its items, in iteration order *)

(** [{int(k): v for k, v in items}] *)
Fixpoint entries_of (items : list (string * num)) (acc : gmap Z num)
  : result (gmap Z num) :=
  match items with
  | [] => Ok acc
  | (k, v) :: rest => i ← int k; entries_of rest (<[i:=v]> acc)
  end.

(** The [for] loop of [percentile].  [i] is the next value of the range,
    [percentile_bucket] the loop variable as last assigned, [freqs] the
    frequencies from position [i] on. *)
Fixpoint for_loop (freqs : list num) (i percentile_bucket : nat) (to_count : num)
  : nat * num :=
  match freqs with
  | [] => (percentile_bucket, to_count)
  | freq :: rest =>
      if nle (nsub to_count freq) (of_Z 0) then (i, to_count)
      else for_loop rest (S i) i (nsub to_count freq)
  end.

(** The labels of the index are [numpy.int64]: their difference is taken in
    64 bits before it meets [to_count]. *)
Definition percentile (self : Histogram) (percentile : num) : result num :=
  _ ← assert (nle (of_Z 0) percentile && nle percentile (of_Z 100));
  _ ← assert (bool_decide (kind self ∈ percentile_kinds));
  let fraction := ndiv percentile (of_Z 100) in
  let to_count := nmul fraction (sum (buckets self)) in
  let '(percentile_bucket, to_count) :=
    for_loop (values (buckets self)) 0 0 to_count in
  if decide (Z.of_nat percentile_bucket = Z.of_nat (length (buckets self)) - 1)%Z
  then Ok NaN
  else
    percentile_frequency ←
      of_option LookupError (values (buckets self) !! percentile_bucket);
    percentile_lower_boundary ←
      of_option LookupError (index (buckets self) !! percentile_bucket);
    upper ← of_option LookupError (index (buckets self) !! S percentile_bucket);
    lower ← of_option LookupError (index (buckets self) !! percentile_bucket);
    let width := int64_sub upper lower in
    Ok (nadd (of_Z percentile_lower_boundary)
             (ndiv (nmul (of_Z width) to_count) percentile_frequency)).

(** What [get_value] returns. *)
Inductive value :=
| Number (x : num)
| Boolean (b : bool)
| Distribution (s : Series num)
| Booleans (s : list (Z * bool)).

Definition get_value (self : Histogram) (only_median : bool) : result value :=
  if bool_decide (kind self ∈ percentile_kinds) then
    if only_median then Number <$> percentile self (of_Z 50)
    else Ok (Distribution (buckets self))
  else if String.eqb (kind self) "count" then
    it ← getitem (buckets self) 0;
    Ok match it with Scalar x => Number x | Rows s => Distribution s end
  else if String.eqb (kind self) "flag" then
    it ← getitem (buckets self) 1;
    Ok match it with
       | Scalar x => Boolean (neqb x (of_Z 1))
       | Rows s => Booleans ((λ row, (row.1, neqb row.2 (of_Z 1))) <$> s)
       end
  else Raise AssertionError.

Definition get_definition (self : Histogram) : histogram_tools.Histogram :=
  definition self.

Section Resolver.

(** [_fetch_histograms_definition(revision)], followed by the parsing of an
    entry by [histogram_tools.Histogram]: the document of a revision maps a
    histogram name to its schema. *)
Variable _fetch_histograms_definition :
  string → result (gmap string histogram_tools.Histogram).

(** [s1 + s2] for two Series whose indexes differ (pandas aligns them on
    their labels).  No statement below inspects its result. *)
Variable align_add : Series num → Series num → result (Series num).

(** [s1 + s2]: row by row when the indexes are the same. *)
Definition Series_add (s1 s2 : Series num) : result (Series num) :=
  if decide (index s1 = index s2)
  then Ok (zip_with (λ r1 r2, (r1.1, nadd r1.2 r2.2)) s1 s2)
  else align_add s1 s2.

Definition __init__ (name : string) (inst : instance) (revision : string)
  : result Histogram :=
  histograms_definition ← _fetch_histograms_definition revision;
  let histogram_name := strip_startup name in
  definition ←
    of_option LookupError (histograms_definition !! histogram_name);
  let kind := histogram_tools.kind definition in
  buckets ←
    match inst with
    | Dense l =>
        let values :=
          if decide (length l = histogram_tools.n_buckets definition)
          then l else drop_last5 l in
        Series_of_list values (histogram_tools.ranges definition)
    | DenseSeries s =>
        let values :=
          if decide (length s = histogram_tools.n_buckets definition)
          then s else drop_last5 s in
        reindex values (histogram_tools.ranges definition)
    | Mapping fields =>
        items ← of_option LookupError (fields !! "values");
        entries ← entries_of items ∅;
        Ok (fillna (of_Z 0)
              (Series_of_dict entries (histogram_tools.ranges definition)))
    end;
  Ok {| definition := definition; kind := kind; name := name;
        buckets := buckets |}.

Definition __add__ (self other : Histogram) : result Histogram :=
  s ← Series_add (buckets self) (buckets other);
  __init__ (name self) (DenseSeries s) default_revision.

End Resolver.

(** ** The percentile algorithm in the words of the specification *)

(** "total_count = sum of all bucket counts" *)
Definition total_count (s : Series num) : num := nsum (values s).

(** "target = (p/100) * total_count" *)
Definition target (s : Series num) (p : num) : num :=
  nmul (ndiv p (of_Z 100)) (total_count s).

(** "Walk buckets in ascending boundary order, accumulating a running remaining
    target; for each bucket with frequency freq, if remaining - freq <= 0 stop
    at this bucket, else subtract freq from remaining and continue."  A Series
    keeps its buckets in the order of the schema, which is the ascending one.
    The result is the stopping bucket followed by the buckets after it, with
    the remaining target; [None] when no bucket stops the walk. *)
Fixpoint walk (bs : Series num) (remaining : num) : option (Series num * num) :=
  match bs with
  | [] => None
  | (boundary, freq) :: rest =>
      if nle (nsub remaining freq) (of_Z 0) then Some (bs, remaining)
      else walk rest (nsub remaining freq)
  end.

(** "result = lower_boundary + width * remaining / freq, where width = next
    bucket's boundary minus this bucket's boundary"; the boundaries are 64-bit
    integers. *)
Definition interpolation (lower next : Z) (remaining freq : num) : num :=
  nadd (of_Z lower) (ndiv (nmul (of_Z (int64_sub next lower)) remaining) freq).

(** The reading at the bucket where the walk stopped. *)
Definition reading (stop : option (Series num * num)) : num :=
  match stop with
  | Some ((lower, freq) :: (next, _) :: _, remaining) =>
      interpolation lower next remaining freq
  | _ => NaN
  end.

(** "all mass falls in the last bucket": every earlier bucket holds zero, and
    the last one a count, which is not negative. *)
Definition all_mass_in_last (s : Series num) : Prop :=
  ∃ zeros b c,
    s = zeros ++ [(b, c)] ∧ nle (of_Z 0) c = true ∧
    Forall (λ row : Z * num, is_zero row.2 = true) zeros.

(** Positive total mass. *)
Definition positive_mass (s : Series num) : Prop := positive (sum s) = true.

(** "percentile(h, 0) <= percentile(h, 50) <= percentile(h, 100)" *)
Definition monotone_at_tested_points (self : Histogram) : Prop :=
  ∃ r0 r50 r100,
    percentile self (of_Z 0) = Ok r0 ∧
    percentile self (of_Z 50) = Ok r50 ∧
    percentile self (of_Z 100) = Ok r100 ∧
    nle r0 r50 = true ∧ nle r50 r100 = true.

(** ** Statements of the specification on construction, values and sums *)

(** "cast each key to an integer bucket index, look up the corresponding
    boundary by position, assign the count there; every boundary whose index
    is absent gets count 0": the Series [s] over [boundaries] holds the
    counts of [items] by position. *)
Definition sparse_by_position
    (boundaries : list Z) (items : list (string * num)) (s : Series num)
  : Prop :=
  ∀ (i : nat) b, boundaries !! i = Some b →
    (∀ k v, (k, v) ∈ items → int k = Ok (Z.of_nat i) → s !! i = Some (b, v)) ∧
    ((∀ k v, (k, v) ∈ items → int k ≠ Ok (Z.of_nat i)) →
     s !! i = Some (b, of_Z 0)).

(** "the count at the single bucket whose boundary key is the schema's first
    boundary", whatever [only_median] is. *)
Definition returns_first_count (self : Histogram) : Prop :=
  ∀ only_median, ∃ b c,
    buckets self !! 0 = Some (b, c) ∧
    get_value self only_median = Ok (Number c).

(** "true iff the bucket at boundary-position 1 has count exactly 1",
    whatever [only_median] is. *)
Definition returns_flag_at_position_1 (self : Histogram) : Prop :=
  ∀ only_median, ∃ b c,
    buckets self !! 1 = Some (b, c) ∧
    get_value self only_median = Ok (Boolean (neqb c (of_Z 1))).

(** "a new value with the same name as a, counts = elementwise sum of
    a.buckets and b.buckets" *)
Definition combined (a b h : Histogram) : Prop :=
  name h = name a ∧
  index (buckets h) = index (buckets a) ∧
  values (buckets h) = zip_with nadd (values (buckets a)) (values (buckets b)).

(** "len(buckets) == bucket_count" and "keys of buckets equal
    bucket_boundaries exactly, in the same order" *)
Definition follows_schema (self : Histogram) : Prop :=
  length (buckets self) = histogram_tools.n_buckets (definition self) ∧
  index (buckets self) = histogram_tools.ranges (definition self).

End Model.

Arguments item : clear implicits.
Arguments Histogram : clear implicits.
Arguments instance : clear implicits.
Arguments value : clear implicits.

(** ** Percentiles without rounding *)

(** A boundary as the data model has it: a 64-bit integer that is not
    negative. *)
Definition boundary (b : Z) : Prop := (0 <= b < 2 ^ 63)%Z.

(** The histogram whose counts are the numbers that the counts of [self]
    stand for. *)
Definition exact_histogram {num} (exact : num → Exact.num)
    (self : Histogram num) : Histogram Exact.num :=
  {| definition := definition self; kind := kind self; name := name self;
     buckets := prod_map id exact <$> buckets self |}.

(** The percentile [r] that [self] has at [p] carries no rounding error: it
    stands for the number that the arithmetic without rounding yields. *)
Definition without_rounding {num} (exact : num → Exact.num)
    (self : Histogram num) (p : Z) (r : num) : Prop :=
  ∃ e, percentile (exact_histogram exact self) (of_Z p) = Ok e ∧
       is_nan e = false ∧ Exact.equiv (exact r) e.

(** ** Sample schemas and histograms *)

Definition linear3 : histogram_tools.Histogram :=
  {| histogram_tools.kind := "linear";
     histogram_tools.n_buckets := 3;
     histogram_tools.ranges := [0; 1; 2]%Z |}.

(** A three-bucket linear histogram with the given counts. *)
Definition sample (c0 c1 c2 : Z) : Histogram numpy.num :=
  {| definition := linear3; kind := "linear"; name := "SAMPLE";
     buckets := [(0, of_Z c0); (1, of_Z c1); (2, of_Z c2)]%Z |}.

Definition schema (kind : string) (boundaries : list Z)
  : histogram_tools.Histogram :=
  {| histogram_tools.kind := kind;
     histogram_tools.n_buckets := length boundaries;
     histogram_tools.ranges := boundaries |}.

Definition older_revision : string :=
  "https://hg.mozilla.org/mozilla-central/rev/37ddc5e2eb72".

(** The schemas of the tip revision. *)
Definition tip : gmap string histogram_tools.Histogram :=
  <["SAMPLE" := linear3]>
  (<["RESCALED" := schema "linear" [0; 5; 10]%Z]>
  (<["EXPONENTIAL" := schema "exponential" [0; 1; 2; 4; 8]%Z]>
  (<["COUNT" := schema "count" [0; 1; 2]%Z]>
  (<["FLAG" := schema "flag" [0; 1; 2]%Z]>
  (<["COUNT_FROM_1" := schema "count" [1; 2; 3]%Z]>
  (<["FLAG_FROM_1" := schema "flag" [1; 2; 3]%Z]> ∅)))))).

(** At the older revision RESCALED had the boundaries 0, 1, 2. *)
Definition older : gmap string histogram_tools.Histogram :=
  <["RESCALED" := linear3]> ∅.

Definition sample_fetch (revision : string)
  : result (gmap string histogram_tools.Histogram) :=
  if String.eqb revision default_revision then Ok tip
  else if String.eqb revision older_revision then Ok older
  else Raise RequestError.

(** A sparse submission for EXPONENTIAL, and the histogram it yields. *)
Definition sparse_items : list (string * numpy.num) := [("4", of_Z 7)].

Definition sparse_sample : Histogram numpy.num :=
  {| definition := schema "exponential" [0; 1; 2; 4; 8]%Z;
     kind := "exponential"; name := "EXPONENTIAL";
     buckets := [(0, of_Z 0); (1, of_Z 0); (2, of_Z 0); (4, of_Z 7);
                 (8, of_Z 0)]%Z |}.

(** A histogram of the given schema, by its name and counts. *)
Definition histogram_of (d : histogram_tools.Histogram) (nm : string)
    (l : list Z) : Histogram numpy.num :=
  {| definition := d; kind := histogram_tools.kind d; name := nm;
     buckets := zip (histogram_tools.ranges d) (of_Z <$> l) |}.

(** A Series whose labels are 2, 0 and 9, and SAMPLE as built from it. *)
Definition shuffled : Series numpy.num :=
  [(2, of_Z 5); (0, of_Z 7); (9, of_Z 1)]%Z.


Definition relabelled : Histogram numpy.num :=
  {| definition := linear3; kind := "linear"; name := "SAMPLE";
     buckets := [(0, of_Z 7); (1, NaN); (2, of_Z 5)]%Z |}.

(** What the sum of RESCALED with counts 1, 2, 3 and itself evaluates to. *)
Definition rescaled_sum : Histogram numpy.num :=
  {| definition := schema "linear" [0; 5; 10]%Z; kind := "linear";
     name := "RESCALED";
     buckets := [(0, of_Z 2); (5, NaN); (10, NaN)]%Z |}.

(** An alignment that refuses every pair of Series. *)
Definition no_align (s1 s2 : Series numpy.num) : result (Series numpy.num) :=
  Raise ValueError.

Definition counts (l : list Z) : list numpy.num := of_Z <$> l.

(** ** The address of the schema document *)

(** [s.replace(old, new)] for a non-empty [old]: every occurrence, from left
    to right and without overlap.  [skip] counts the characters of the
    occurrence just replaced that are still to be passed over. *)
Fixpoint replace_from (old new : string) (skip : nat) (s : string) : string :=
  match s with
  | EmptyString => EmptyString
  | String c s' =>
      match skip with
      | S k => replace_from old new k s'
      | O =>
          if String.prefix old s
          then new +:+ replace_from old new (String.length old - 1) s'
          else String c (replace_from old new 0 s')
      end
  end.

Definition replace (old new s : string) : string := replace_from old new 0 s.

(** The [uri] of [_fetch_histograms_definition]. *)
Definition uri (revision : string) : string :=
  replace "rev" "raw-file"
    (revision +:+ "/toolkit/components/telemetry/Histograms.json").

(** [old] occurs in [s]. *)
Fixpoint occurs (old s : string) : bool :=
  String.prefix old s ||
  match s with
  | EmptyString => false
  | String _ s' => occurs old s'
  end.

(** The six kinds the class knows. *)
Definition known_kinds : list string := percentile_kinds ++ ["count"; "flag"].

(** ** The arithmetic of numpy is a floating-point arithmetic *)

(** The facts on binary64 come from the specification of Rocq's primitive
    floats, [Prim2SF] mapping a float to its sign, mantissa and exponent. *)
Module numpy_facts.
Import Floats.SpecFloat Floats.FloatOps Floats.FloatAxioms.
Import numpy.

Ltac wrap_lia :=
  unfold wrap64 in *;
  change (2 ^ 63)%Z with 9223372036854775808%Z in *;
  change (2 ^ 64)%Z with 18446744073709551616%Z in *;
  Z.to_euclidean_division_equations; lia.

(** Integers that wrap to zero are the multiples of 2^64. *)
Lemma wrap_wrap z : wrap64 (wrap64 z) = wrap64 z.
Proof. wrap_lia. Qed.

Lemma wrap_add_zero z a : wrap64 z = 0%Z → wrap64 (z + a) = wrap64 a.
Proof. intros. wrap_lia. Qed.

Lemma wrap_mul_zero w t : wrap64 t = 0%Z → wrap64 (w * t) = 0%Z.
Proof.
  intros H.
  assert (∃ k, t = 18446744073709551616 * k)%Z as [k ->].
  { exists ((t + 9223372036854775808) / 18446744073709551616)%Z. wrap_lia. }
  clear H. unfold wrap64.
  change (2 ^ 63)%Z with 9223372036854775808%Z.
  change (2 ^ 64)%Z with 18446744073709551616%Z.
  replace (w * (18446744073709551616 * k) + 9223372036854775808)%Z
    with (9223372036854775808 + (w * k) * 18446744073709551616)%Z by lia.
  rewrite Z.mod_add by lia. reflexivity.
Qed.

Lemma Prim2SF_zero : Prim2SF PrimFloat.zero = S754_zero false.
Proof. reflexivity. Qed.

Lemma astype_float_zero z : wrap64 z = 0%Z → astype_float z = PrimFloat.zero.
Proof. intros H. unfold astype_float. rewrite H. reflexivity. Qed.

(** Rounding keeps the sign. *)
Lemma binary_round_aux_sign s m e l :
  match binary_round_aux prec emax s m e l with
  | S754_zero s' | S754_infinity s' | S754_finite s' _ _ => s' = s
  | S754_nan => True
  end.
Proof.
  unfold binary_round_aux. destruct (shr_fexp _ _ _ _ _) as [mrs' e'].
  destruct (shr_fexp _ _ _ _ _) as [mrs'' e''].
  destruct (shr_m mrs''); [done| |done]. by destruct (_ <=? _)%Z.
Qed.

Lemma binary_round_sign s m e :
  match binary_round prec emax s m e with
  | S754_zero s' | S754_infinity s' | S754_finite s' _ _ => s' = s
  | S754_nan => True
  end.
Proof.
  unfold binary_round. destruct (shl_align _ _ _) as [mz ez].
  apply binary_round_aux_sign.
Qed.

Lemma binary_normalize_notneg m e :
  (0 <= m)%Z → sf_notneg (binary_normalize prec emax m e false).
Proof.
  intros Hm. destruct m as [|m|m]; [done| |lia]. simpl.
  pose proof (binary_round_sign false m e) as H.
  by destruct (binary_round _ _ _ _ _).
Qed.

(** An integer that is not negative converts to a float that is not
    negative. *)
Lemma astype_float_notneg z :
  (0 <= wrap64 z)%Z → sf_notneg (Prim2SF (astype_float z)).
Proof.
  intros H. unfold astype_float.
  rewrite (proj2 (Z.eqb_neq _ _)) by (change (2 ^ 63)%Z with 9223372036854775808%Z; lia).
  rewrite (proj2 (Z.ltb_ge _ _)) by done.
  rewrite of_uint63_spec. apply binary_normalize_notneg.
  apply Uint63.to_Z_bounded.
Qed.

(** The comparisons of a float with zero. *)
Lemma eqb_zero f :
  PrimFloat.eqb f PrimFloat.zero = true ↔ sf_zero (Prim2SF f).
Proof.
  rewrite eqb_spec, Prim2SF_zero.
  by destruct (Prim2SF f) as [[]|[]| |[] m e].
Qed.

Lemma leb_zero_negative f :
  PrimFloat.leb f PrimFloat.zero && negb (PrimFloat.eqb f PrimFloat.zero) = false
  ↔ sf_notneg (Prim2SF f).
Proof.
  rewrite leb_spec, eqb_spec, Prim2SF_zero.
  by destruct (Prim2SF f) as [[]|[]| |[] m e].
Qed.

Lemma zero_leb f :
  PrimFloat.leb PrimFloat.zero f = true → sf_notneg (Prim2SF f).
Proof.
  rewrite leb_spec, Prim2SF_zero.
  by destruct (Prim2SF f) as [[]|[]| |[] m e].
Qed.

(** Only not-a-number differs from itself. *)
Lemma SFeqb_refl x : x ≠ S754_nan → SFeqb x x = true.
Proof.
  destruct x as [[]|[]| |[] m e]; try done; intros _;
    unfold SFeqb, SFcompare; rewrite Z.compare_refl, Pos.compare_cont_refl; done.
Qed.

Lemma isnan_float f :
  negb (PrimFloat.eqb f f) = true ↔ Prim2SF f = S754_nan.
Proof.
  rewrite eqb_spec. split.
  - intros H. destruct (Prim2SF f) as [s|s| |s m e] eqn:E; [..|done|];
      by rewrite SFeqb_refl in H.
  - by intros ->.
Qed.

(** Signs and zeros under the four operations. *)
Lemma Prim2SF_hundred :
  Prim2SF (astype_float 100) = S754_finite false 7036874417766400 (-46).
Proof. reflexivity. Qed.

Lemma SFdiv_notneg x m e :
  sf_notneg x → sf_notneg (SF64div x (S754_finite false m e)).
Proof.
  destruct x as [sx|sx| |sx mx ex]; simpl; try done.
  - intros ->. done.
  - intros ->. unfold SF64div, SFdiv.
    destruct (SFdiv_core_binary _ _ _ _ _ _) as [[mz ez] lz].
    pose proof (binary_round_aux_sign (xorb false false) mz ez lz) as H.
    by destruct (binary_round_aux _ _ _ _ _ _).
Qed.

Lemma SFmul_notneg x y :
  sf_notneg x → sf_notneg y → sf_notneg (SF64mul x y).
Proof.
  destruct x as [sx|sx| |sx mx ex], y as [sy|sy| |sy my ey]; simpl; try done;
    try (by intros -> ->); try (by intros _ ->); try (by intros -> _).
  intros -> ->. unfold SF64mul, SFmul.
  pose proof (binary_round_aux_sign (xorb false false) (Z.pos (mx * my))
                (ex + ey) loc_Exact) as H.
  by destruct (binary_round_aux _ _ _ _ _ _).
Qed.

Lemma SFadd_zero_notneg x y :
  sf_zero x → sf_notneg y → sf_notneg (SF64add x y).
Proof. destruct x as [[]|?| |???], y as [[]|[]| |[] ??]; done. Qed.

Lemma SFadd_zero_zero x y : sf_zero x → sf_zero y → sf_zero (SF64add x y).
Proof. destruct x as [[]|?| |???], y as [[]|?| |???]; done. Qed.

Lemma SFsub_zero_leb x z :
  sf_zero z →
  SFleb (SF64sub x z) (S754_zero false) = SFleb x (S754_zero false).
Proof. destruct z as [[]|?| |???], x as [[]|[]| |[] ??]; done. Qed.

Lemma SFmul_div_zero w t z :
  sf_zero t → sf_zero z → SF64div (SF64mul w t) z = S754_nan.
Proof. destruct t as [[]|?| |???], z as [[]|?| |???], w as [[]|[]| |[] ??]; done. Qed.

Lemma SFadd_nan x : SF64add x S754_nan = S754_nan.
Proof. by destruct x. Qed.

(** Numbers of the arithmetic, read as floats. *)
Lemma is_zero_float x :
  is_zero x = true → sf_zero (Prim2SF (to_float x)).
Proof.
  destruct x as [z|f]; unfold is_zero; simpl.
  - intros H%Z.eqb_eq. change (wrap64 0) with 0%Z in H.
    by rewrite astype_float_zero.
  - apply eqb_zero.
Qed.

Lemma negative_float x :
  negative x = false → sf_notneg (Prim2SF (to_float x)).
Proof.
  destruct x as [z|f]; unfold negative; simpl.
  - change (wrap64 0) with 0%Z. intros H. apply astype_float_notneg.
    destruct (Z.leb_spec (wrap64 z) 0), (Z.eqb_spec (wrap64 z) 0); simpl in H; lia.
  - apply leb_zero_negative.
Qed.

Lemma float_negative f :
  sf_notneg (Prim2SF f) → negative (float64 f) = false.
Proof. apply leb_zero_negative. Qed.

(** Sums of columns of zeros. *)
Lemma float_sum_zeros zeros acc :
  sf_zero (Prim2SF acc) → Forall (λ z, is_zero z = true) zeros →
  sf_zero (Prim2SF (foldl (λ acc x, if isnan x then acc
                                      else PrimFloat.add acc (to_float x))
                          acc zeros)).
Proof.
  intros Hacc Hz. revert acc Hacc.
  induction Hz as [|z zeros Hz _ IH]; intros acc Hacc; [done|]. simpl.
  apply IH. destruct (isnan z); [done|]. rewrite add_spec.
  by apply SFadd_zero_zero, is_zero_float.
Qed.

Lemma int_sum_zeros zeros c :
  Forall (λ z, is_zero z = true) zeros →
  wrap64 (int_sum (zeros ++ [int64 c])) = wrap64 c.
Proof.
  induction 1 as [|z zeros Hz _ IH]; simpl.
  - by rewrite Z.add_0_r.
  - destruct z as [z|f]; [|done]. rewrite wrap_add_zero; [done|].
    unfold is_zero in Hz. simpl in Hz. by apply Z.eqb_eq in Hz.
Qed.

End numpy_facts.

(** The operations of the class at numpy. *)
Ltac numpy_ops :=
  change (@of_Z _ numpy_arithmetic) with numpy.int64 in *;
  change (@is_nan _ numpy_arithmetic) with numpy.isnan in *;
  change (@nadd _ numpy_arithmetic) with numpy.add in *;
  change (@nsub _ numpy_arithmetic) with numpy.subtract in *;
  change (@nmul _ numpy_arithmetic) with numpy.multiply in *;
  change (@ndiv _ numpy_arithmetic) with numpy.true_divide in *;
  change (@nle _ numpy_arithmetic) with numpy.less_equal in *;
  change (@nsum _ numpy_arithmetic) with numpy.sum in *.

(** The floats of numpy are its inexact numbers. *)
#[global] Instance numpy_floating_point : FloatingPoint numpy.num.
Proof.
  refine {| inexact x := numpy.is_int x = false |}; intros; numpy_ops.
  - done.
  - by destruct x.
  - by destruct x.
  - destruct x as [z|f]; [done|]. simpl in *.
    apply numpy_facts.isnan_float in H. f_equal.
    by apply Floats.FloatAxioms.Prim2SF_inj.
  - destruct y as [z|g]; [done|]. simpl in H.
    apply numpy_facts.isnan_float in H.
    assert (numpy.add x (numpy.float64 g)
            = numpy.float64 (PrimFloat.add (numpy.to_float x) g)) as ->
      by by destruct x.
    simpl. apply numpy_facts.isnan_float.
    by rewrite Floats.FloatAxioms.add_spec, H, numpy_facts.SFadd_nan.
  - rename H into Ht, H0 into Hz. simpl. apply numpy_facts.isnan_float.
    rewrite Floats.FloatAxioms.div_spec.
    pose proof (numpy_facts.is_zero_float _ Hz) as Hz'.
    destruct w as [w|w], t as [t|t]; simpl.
    + unfold is_zero in Ht. simpl in Ht. apply Z.eqb_eq in Ht.
      change (wrap64 0) with 0%Z in Ht.
      rewrite numpy_facts.astype_float_zero
        by (by rewrite numpy_facts.wrap_wrap, numpy_facts.wrap_mul_zero).
      by destruct (Floats.FloatOps.Prim2SF (numpy.to_float z)) as [[]| | |].
    + rewrite Floats.FloatAxioms.mul_spec.
      apply numpy_facts.SFmul_div_zero; [|done].
      exact (numpy_facts.is_zero_float _ Ht).
    + rewrite Floats.FloatAxioms.mul_spec.
      apply numpy_facts.SFmul_div_zero; [|done].
      exact (numpy_facts.is_zero_float _ Ht).
    + rewrite Floats.FloatAxioms.mul_spec.
      apply numpy_facts.SFmul_div_zero; [|done].
      exact (numpy_facts.is_zero_float _ Ht).
  - destruct r as [r|r]; [done|]. rename H0 into Hz.
    assert (numpy.subtract (numpy.float64 r) z
            = numpy.float64 (PrimFloat.sub r (numpy.to_float z))) as ->
      by by destruct z.
    simpl. rewrite !Floats.FloatAxioms.leb_spec, Floats.FloatAxioms.sub_spec.
    apply numpy_facts.SFsub_zero_leb. exact (numpy_facts.is_zero_float _ Hz).
  - destruct x as [z|f]; unfold negative; simpl in *.
    + change (wrap64 0) with 0%Z in *. apply Z.leb_le in H.
      destruct (Z.leb_spec (wrap64 z) 0), (Z.eqb_spec (wrap64 z) 0);
        simpl; lia.
    + by apply numpy_facts.leb_zero_negative, numpy_facts.zero_leb.
  - rename H into Hp, H0 into Hs.
    assert (numpy.multiply (numpy.true_divide p (numpy.int64 100)) s
            = numpy.float64
                (PrimFloat.mul
                   (PrimFloat.div (numpy.to_float p) (numpy.astype_float 100))
                   (numpy.to_float s))) as ->
      by by destruct s.
    apply numpy_facts.float_negative.
    rewrite Floats.FloatAxioms.mul_spec, Floats.FloatAxioms.div_spec.
    rewrite numpy_facts.Prim2SF_hundred.
    apply numpy_facts.SFmul_notneg; [|by apply numpy_facts.negative_float].
    by apply numpy_facts.SFdiv_notneg, numpy_facts.negative_float.
  - rename H into Hz, H0 into Hc. unfold numpy.sum.
    destruct (forallb numpy.is_int (zeros ++ [c])) eqn:E.
    + rewrite forallb_app in E. apply andb_true_iff in E as [_ E].
      destruct c as [c|f]; [|done].
      unfold negative in *. simpl in *.
      by rewrite numpy_facts.wrap_wrap, numpy_facts.int_sum_zeros.
    + apply numpy_facts.float_negative. unfold numpy.float_sum.
      rewrite foldl_app. simpl.
      pose proof (numpy_facts.float_sum_zeros zeros PrimFloat.zero I Hz) as H0.
      destruct (numpy.isnan c).
      * by destruct (Floats.FloatOps.Prim2SF _).
      * rewrite Floats.FloatAxioms.add_spec.
        by apply numpy_facts.SFadd_zero_notneg, numpy_facts.negative_float.
Qed.


(** ** The loop of [percentile] against the walk *)

Section Percentile.

Context {num : Type} `{!Arithmetic num}.

Lemma for_loop_walk_stop (bs : Series num) t stop r :
  walk bs t = Some (stop, r) →
  ∃ before, bs = before ++ stop ∧ stop ≠ [] ∧
    ∀ i pb, for_loop (values bs) i pb t = (i + length before, r).
Proof.
  revert t. induction bs as [|[b f] bs IH]; intros t; [done|]. simpl.
  destruct (nle (nsub t f) (of_Z 0)) eqn:E.
  - intros [= <- <-]. exists []. split; [done|]. split; [done|].
    intros i pb. by rewrite Nat.add_0_r.
  - intros (before & -> & Hne & Hloop)%IH. exists ((b, f) :: before).
    split; [done|]. split; [done|]. intros i pb.
    rewrite Hloop. f_equal. simpl. lia.
Qed.

Lemma for_loop_walk_none (bs : Series num) t :
  walk bs t = None →
  ∀ i pb, (for_loop (values bs) i pb t).1 =
          match bs with [] => pb | _ => i + length bs - 1 end.
Proof.
  revert t. induction bs as [|[b f] bs IH]; intros t; [done|]. simpl.
  destruct (nle (nsub t f) (of_Z 0)) eqn:E; [done|].
  intros H i pb. unfold values in IH. rewrite (IH _ H).
  destruct bs; simpl; lia.
Qed.

(** [percentile], once its assertions hold, reads the bucket where the walk
    stops; it returns [nan] when no bucket stops the walk; and without any
    bucket the subscript raises. *)
Lemma percentile_walk (self : Histogram num) p :
  nle (of_Z 0) p && nle p (of_Z 100) = true →
  kind self ∈ percentile_kinds →
  percentile self p =
    match buckets self with
    | [] => Raise LookupError
    | _ => Ok (reading (walk (buckets self) (target (buckets self) p)))
    end.
Proof.
  intros Hp Hk. unfold percentile, target, total_count, sum. rewrite Hp. simpl.
  rewrite (bool_decide_eq_true_2 _ Hk). simpl.
  destruct self as [d k n bs]. simpl. clear Hk.
  set (t := nmul _ _). clearbody t.
  destruct (walk bs t) as [[stop r]|] eqn:W.
  - destruct (for_loop_walk_stop _ _ _ _ W) as (before & -> & Hne & Hloop).
    rewrite Hloop. simpl.
    assert (∀ x y : result num,
              match before ++ stop with [] => x | _ => y end = y) as ->
      by (intros; by destruct before, stop).
    destruct stop as [|[lower freq] [|[next c] rest]]; [done|..]; simpl.
    + rewrite decide_True by (rewrite length_app; simpl; lia). done.
    + rewrite decide_False by (rewrite length_app; simpl; lia).
      unfold values, index. rewrite !fmap_app. simpl.
      rewrite !(lookup_app_r _ _ (length before)) by (by rewrite length_fmap).
      rewrite !(lookup_app_r _ _ (S (length before)))
        by (rewrite length_fmap; lia).
      rewrite !length_fmap, Nat.sub_diag.
      replace (S (length before) - length before) with 1 by lia. done.
  - pose proof (for_loop_walk_none _ _ W 0 0) as H.
    destruct (for_loop _ 0 0 t) as [pb r]. simpl in H. subst pb.
    destruct bs as [|x bs]; [done|].
    rewrite decide_True by (simpl; lia). done.
Qed.

Lemma percentile_Ok_inv (self : Histogram num) p r :
  percentile self p = Ok r →
  nle (of_Z 0) p && nle p (of_Z 100) = true ∧
  kind self ∈ percentile_kinds ∧ buckets self ≠ [].
Proof.
  intros H.
  destruct (nle (of_Z 0) p && nle p (of_Z 100)) eqn:Hp;
    [|by unfold percentile in H; rewrite Hp in H].
  destruct (decide (kind self ∈ percentile_kinds)) as [Hk|Hk].
  - rewrite percentile_walk in H by done.
    by destruct (buckets self).
  - unfold percentile in H. rewrite Hp in H. simpl in H.
    by rewrite (bool_decide_eq_false_2 _ Hk) in H.
Qed.

(** With every mass in the last bucket no reading is a number: the walk
    either reaches the last bucket or stops at an empty bucket with nothing
    left to count, where the interpolation divides zero by zero. *)
Lemma reading_all_mass_in_last `{!FloatingPoint num}
    (zeros : Series num) last : ∀ t,
  Forall (λ row : Z * num, is_zero row.2 = true) zeros →
  inexact t → (nle t (of_Z 0) = true → is_zero t = true) →
  reading (walk (zeros ++ [last]) t) = NaN.
Proof.
  induction zeros as [|[b z] zeros IH]; intros t Hz Ht H0.
  - destruct last as [b f]. simpl. by destruct (nle (nsub _ _) _).
  - apply Forall_cons in Hz as [Hz0 Hz]. simpl in Hz0.
    simpl. pose proof (nsub_zero t z Ht Hz0) as Hsub.
    destruct (nle (nsub t z) (of_Z 0)) eqn:E.
    + destruct (zeros ++ [last]) as [|[next c] rest] eqn:Hl; [done|].
      simpl. unfold interpolation. apply nan_unique, nadd_nan, zero_div_zero.
      * apply H0. congruence.
      * done.
    + apply IH; [done|by apply inexact_nsub|]. congruence.
Qed.

(** The target of [percentile] is not negative when the mass lies in the
    last bucket. *)
Lemma target_all_mass_in_last `{!FloatingPoint num}
    (zeros : Series num) b c p :
  Forall (λ row : Z * num, is_zero row.2 = true) zeros →
  nle (of_Z 0) c = true → nle (of_Z 0) p = true →
  let t := target (zeros ++ [(b, c)]) p in
  inexact t ∧ (nle t (of_Z 0) = true → is_zero t = true).
Proof.
  intros Hz Hc Hp t. split.
  - apply inexact_nmul, inexact_ndiv.
  - assert (negative t = false) as Hneg.
    { apply fraction_sign; [by apply not_negative|].
      unfold total_count, values. rewrite fmap_app. simpl.
      apply nsum_sign; [|by apply not_negative].
      by apply Forall_fmap. }
    unfold negative in Hneg. intros Hle. rewrite Hle in Hneg.
    simpl in Hneg. unfold is_zero. by destruct (neqb t (of_Z 0)).
Qed.

(** ** Claims on [percentile] *)

(** C1.  For a percentile-eligible histogram and [0 <= p <= 100], let
    [target = (p/100) * total_count] and walk the buckets in ascending order,
    stopping at the first bucket with [remaining - freq <= 0].  When the walk
    of the specification stops at a bucket that is not the last one,
    [percentile] returns [lower_boundary + width * remaining / freq], with
    [width] the next boundary minus the boundary of the stopping bucket.
    This holds in every arithmetic, and whatever the counts are. *)
Theorem percentile_follows_walk (self : Histogram num) p
    lower freq next c rest remaining :
  kind self ∈ percentile_kinds →
  nle (of_Z 0) p && nle p (of_Z 100) = true →
  walk (buckets self) (target (buckets self) p)
    = Some ((lower, freq) :: (next, c) :: rest, remaining) →
  percentile self p = Ok (interpolation lower next remaining freq).
Proof.
  intros Hk Hp W. rewrite percentile_walk by done.
  rewrite W. simpl. by destruct (buckets self).
Qed.

(** C6.  For a percentile-eligible histogram and [0 <= p <= 100], when the
    walk stops at the last bucket, and in particular whenever all mass falls
    in the last bucket, [percentile] returns not-a-number.  The first case
    holds in every arithmetic; the second one rests on the floating-point
    treatment of zero, which makes the interpolation at an empty bucket
    not-a-number when the target is zero. *)
Theorem percentile_last_bucket_nan `{!FloatingPoint num}
    (self : Histogram num) p :
  kind self ∈ percentile_kinds →
  nle (of_Z 0) p && nle p (of_Z 100) = true →
  (∃ last remaining,
     walk (buckets self) (target (buckets self) p) = Some ([last], remaining))
  ∨ all_mass_in_last (buckets self) →
  percentile self p = Ok NaN.
Proof.
  intros Hk Hp H. rewrite percentile_walk by done.
  destruct H as [(last & remaining & W)|(zeros & b & c & Hb & Hc & Hz)].
  - rewrite W. destruct last. by destruct (buckets self).
  - apply andb_true_iff in Hp as [Hp _]. rewrite Hb.
    destruct (target_all_mass_in_last zeros b c p Hz Hc Hp) as [Ht H0].
    rewrite reading_all_mass_in_last by done. by destruct zeros.
Qed.

(** X8.  [percentile] returns a value exactly when [0 <= p <= 100], the kind
    is one of the four distributions and the histogram has a bucket; a bad
    [p] or kind raises [AssertionError], no bucket raises [LookupError]. *)
Theorem percentile_returns_iff (self : Histogram num) p :
  ((∃ r, percentile self p = Ok r) ↔
   nle (of_Z 0) p && nle p (of_Z 100) = true ∧
   kind self ∈ percentile_kinds ∧ buckets self ≠ []) ∧
  (nle (of_Z 0) p && nle p (of_Z 100) = false ∨ kind self ∉ percentile_kinds →
   percentile self p = Raise AssertionError) ∧
  (nle (of_Z 0) p && nle p (of_Z 100) = true → kind self ∈ percentile_kinds →
   buckets self = [] → percentile self p = Raise LookupError).
Proof.
  split; [split|split].
  - intros [r H]. by eapply percentile_Ok_inv.
  - intros (Hp & Hk & Hb). rewrite percentile_walk by done.
    destruct (buckets self); [done|eauto].
  - unfold percentile. intros [->| Hk]; [done|].
    destruct (nle (of_Z 0) p && nle p (of_Z 100)); [|done]. simpl.
    by rewrite (bool_decide_eq_false_2 _ Hk).
  - intros Hp Hk Hb. rewrite percentile_walk by done. by rewrite Hb.
Qed.

End Percentile.

Lemma percentile_follows_walk_witness :
  percentile (sample 1 1 0) (of_Z 50)
  = Ok (interpolation 0 1 (target (buckets (sample 1 1 0)) (of_Z 50)) (of_Z 1)).
Proof.
  apply (percentile_follows_walk (sample 1 1 0) (of_Z 50)
           0 (of_Z 1) 1 (of_Z 1) [(2%Z, of_Z 0)]).
  - by apply (bool_decide_unpack _).
  - reflexivity.
  - reflexivity.
Defined.

Lemma percentile_last_bucket_nan_witness :
  percentile (sample 0 0 1) (of_Z 50) = Ok NaN.
Proof.
  apply (percentile_last_bucket_nan (sample 0 0 1) (of_Z 50)).
  - by apply (bool_decide_unpack _).
  - reflexivity.
  - right. exists [(0%Z, of_Z 0); (1%Z, of_Z 0)], 2%Z, (of_Z 1).
    split; [reflexivity|]. split; [reflexivity|].
    repeat constructor.
Defined.

(** ** Percentiles in the arithmetic without rounding *)

Ltac exact_ops :=
  change (@of_Z _ exact_arithmetic) with (λ z, Exact.Fin (inject_Z z)) in *;
  change (@NaN _ exact_arithmetic) with Exact.Nan in *;
  change (@is_nan _ exact_arithmetic) with Exact.isnan in *;
  change (@nadd _ exact_arithmetic) with Exact.add in *;
  change (@nsub _ exact_arithmetic) with Exact.sub in *;
  change (@nmul _ exact_arithmetic) with Exact.mul in *;
  change (@ndiv _ exact_arithmetic) with Exact.div in *;
  change (@nle _ exact_arithmetic) with Exact.le in *;
  change (@nsum _ exact_arithmetic) with Exact.sum in *;
  cbv beta in *.

Lemma nle_Fin a b : nle (Exact.Fin a) (Exact.Fin b) = true ↔ (a <= b)%Q.
Proof. apply Qle_bool_iff. Qed.

Lemma nle_Fin_false a b : nle (Exact.Fin a) (Exact.Fin b) = false ↔ (b < a)%Q.
Proof.
  exact_ops. unfold Exact.le. split.
  - intros H. apply Qnot_le_lt. intros Hle. apply Qle_bool_iff in Hle. congruence.
  - intros H. destruct (Qle_bool a b) eqn:E; [|done].
    apply Qle_bool_iff in E. exfalso. eapply Qlt_not_le; eauto.
Qed.

Lemma nle_zero a : nle (Exact.Fin a) (of_Z 0) = true ↔ (a <= 0)%Q.
Proof. apply nle_Fin. Qed.

Lemma nle_zero_false a : nle (Exact.Fin a) (of_Z 0) = false ↔ (0 < a)%Q.
Proof. apply nle_Fin_false. Qed.

Lemma nsub_Fin a b : nsub (Exact.Fin a) (Exact.Fin b) = Exact.Fin (a - b).
Proof. done. Qed.

Lemma qsign_zero q : (q == 0)%Q → Exact.qsign q = Eq.
Proof.
  unfold Exact.qsign, Qeq. simpl. intros H. rewrite Z.mul_1_r in H. by rewrite H.
Qed.

Lemma nle_equiv a a' b b' :
  Exact.equiv a a' → Exact.equiv b b' → nle a b = nle a' b'.
Proof.
  exact_ops. destruct a, a', b, b'; simpl; try done. intros Ha Hb.
  destruct (Qle_bool q q1) eqn:E1, (Qle_bool q0 q2) eqn:E2; try done.
  - apply Qle_bool_iff in E1. rewrite Ha, Hb in E1.
    apply Qle_bool_iff in E1. congruence.
  - apply Qle_bool_iff in E2. rewrite <- Ha, <- Hb in E2.
    apply Qle_bool_iff in E2. congruence.
Qed.

Lemma foldl_sum_count l a :
  (0 <= a)%Q → Forall Exact.count l →
  ∃ t, foldl (λ acc x, if Exact.isnan x then acc else Exact.add acc x)
         (Exact.Fin a) l = Exact.Fin t ∧ (0 <= t)%Q.
Proof.
  intros Ha H. revert a Ha. induction H as [|x l (q & -> & Hq) _ IH]; intros a Ha.
  - by exists a.
  - simpl. apply IH. lra.
Qed.

Lemma sum_count (s : Series Exact.num) :
  Forall Exact.count (values s) → ∃ t, sum s = Exact.Fin t ∧ (0 <= t)%Q.
Proof. intros H. apply foldl_sum_count; [done|exact H]. Qed.

(** Between two boundaries in ascending order the 64-bit difference is the
    difference. *)
Lemma int64_sub_boundaries lower next :
  boundary lower → boundary next → (lower < next)%Z →
  int64_sub next lower = (next - lower)%Z.
Proof.
  unfold boundary, int64_sub, wrap64.
  change (2 ^ 63)%Z with 9223372036854775808%Z.
  change (2 ^ 64)%Z with 18446744073709551616%Z.
  intros H1 H2 H. rewrite Z.mod_small; lia.
Qed.

Lemma interpolation_Fin lower next t q x :
  interpolation lower next (Exact.Fin t) (Exact.Fin q) = Exact.Fin x →
  ¬ (q == 0)%Q ∧
  x = (inject_Z lower + inject_Z (int64_sub next lower) * t / q)%Q.
Proof.
  unfold interpolation. exact_ops. unfold Exact.add, Exact.div, Exact.mul.
  destruct (Qeq_bool q 0) eqn:E.
  - by destruct (Exact.qsign _).
  - intros [= <-]. split; [|done]. by apply Qeq_bool_neq.
Qed.

Lemma interpolation_zero lower next t q :
  (t == 0)%Q → (q == 0)%Q →
  interpolation lower next (Exact.Fin t) (Exact.Fin q) = NaN.
Proof.
  intros Ht Hq. unfold interpolation. exact_ops.
  unfold Exact.add, Exact.div, Exact.mul.
  rewrite (proj2 (Qeq_bool_iff q 0) Hq), qsign_zero; [done|].
  rewrite Ht. ring.
Qed.

Lemma inject_Z_width lower next :
  (inject_Z (next - lower) == inject_Z next - inject_Z lower)%Q.
Proof.
  unfold Z.sub. rewrite inject_Z_plus, inject_Z_opp. reflexivity.
Qed.

Lemma Qdiv_mono w t1 t2 q :
  (0 <= w)%Q → (0 < q)%Q → (t1 <= t2)%Q → (w * t1 / q <= w * t2 / q)%Q.
Proof.
  intros Hw Hq Ht. unfold Qdiv. apply Qmult_le_compat_r.
  - nra.
  - apply Qlt_le_weak. by apply Qinv_lt_0_compat.
Qed.

Lemma Qdiv_le_width w t q :
  (0 <= w)%Q → (0 < q)%Q → (t <= q)%Q → (w * t / q <= w)%Q.
Proof.
  intros Hw Hq Ht. apply Qle_shift_div_r; [done|]. nra.
Qed.

Lemma Qdiv_nonneg w t q :
  (0 <= w)%Q → (0 < q)%Q → (0 <= t)%Q → (0 <= w * t / q)%Q.
Proof.
  intros Hw Hq Ht. apply Qle_shift_div_l; [done|]. nra.
Qed.

(** The width of a bucket that has a successor. *)
Lemma sorted_head_width b next rest :
  StronglySorted Z.lt (b :: next :: rest) →
  Forall boundary (b :: next :: rest) →
  int64_sub next b = (next - b)%Z ∧ (0 <= inject_Z (next - b))%Q.
Proof.
  intros Hs Hb. apply StronglySorted_inv in Hs as [_ Hs].
  apply Forall_inv in Hs.
  apply Forall_cons in Hb as [Hb Hn]. apply Forall_inv in Hn.
  split; [by apply int64_sub_boundaries|].
  change 0%Q with (inject_Z 0). rewrite <- Zle_Qle. lia.
Qed.

(** A finite reading lies at or above the boundary of the first bucket
    walked. *)
Lemma reading_ge (rest : Series Exact.num) : ∀ b q t x,
  (0 <= q)%Q → Forall Exact.count (values rest) →
  StronglySorted Z.lt (b :: index rest) →
  Forall boundary (b :: index rest) → (0 <= t)%Q →
  reading (walk ((b, Exact.Fin q) :: rest) (Exact.Fin t)) = Exact.Fin x →
  (inject_Z b <= x)%Q.
Proof.
  induction rest as [|[next c] rest IH]; intros b q t x Hq Hc Hs Hb Ht;
    cbn [walk]; rewrite nsub_Fin; destruct (nle _ _) eqn:E; try done.
  - intros [Hq0 ->]%interpolation_Fin.
    destruct (sorted_head_width b next (index rest) Hs Hb) as [-> Hw].
    assert (0 < q)%Q by (apply Qle_lteq in Hq as [|Hq]; [done|by destruct Hq0]).
    pose proof (Qdiv_nonneg _ _ _ Hw H Ht). lra.
  - apply nle_zero_false in E. simpl in Hc.
    apply Forall_cons in Hc as [(c' & -> & Hc') Hc].
    intros Hx. simpl in Hs. apply StronglySorted_inv in Hs as [Hs Hlt].
    simpl in Hb. apply Forall_cons in Hb as [_ Hb].
    apply (IH next c' (t - q)%Q x) in Hx; [|done|done|done|done|lra].
    apply Forall_inv in Hlt. apply Z.lt_le_incl in Hlt.
    rewrite Zle_Qle in Hlt. lra.
Qed.

(** Readings grow with the target. *)
Lemma reading_mono (bs : Series Exact.num) : ∀ t1 t2 x1 x2,
  Forall Exact.count (values bs) → StronglySorted Z.lt (index bs) →
  Forall boundary (index bs) →
  (0 <= t1)%Q → (t1 <= t2)%Q →
  reading (walk bs (Exact.Fin t1)) = Exact.Fin x1 →
  reading (walk bs (Exact.Fin t2)) = Exact.Fin x2 →
  (x1 <= x2)%Q.
Proof.
  induction bs as [|[b f] bs IH]; intros t1 t2 x1 x2 Hc Hs Hb Ht1 Ht; [done|].
  simpl in Hc. apply Forall_cons in Hc as [(q & -> & Hq) Hc].
  destruct bs as [|[next c] bs].
  { cbn [walk]. rewrite !nsub_Fin. by destruct (nle _ _). }
  destruct (sorted_head_width b next (index bs) Hs Hb) as [Hwidth Hw].
  pose proof (IH (t1 - q)%Q (t2 - q)%Q x1 x2 Hc) as IH'.
  pose proof (reading_ge bs next) as Hge.
  simpl in Hs. apply StronglySorted_inv in Hs as [Hs Hlt].
  simpl in Hb. apply Forall_cons in Hb as [_ Hb].
  simpl in Hc. pose proof Hc as Hc'.
  apply Forall_cons in Hc' as [(c' & -> & Hc') Hc''].
  cbn [walk]. rewrite !nsub_Fin.
  destruct (nle (Exact.Fin (t1 - q)) _) eqn:E1,
           (nle (Exact.Fin (t2 - q)) _) eqn:E2.
  - cbn [reading]. intros [Hq0 ->]%interpolation_Fin [_ ->]%interpolation_Fin.
    rewrite Hwidth.
    assert (0 < q)%Q by (apply Qle_lteq in Hq as [|Hq]; [done|by destruct Hq0]).
    pose proof (Qdiv_mono _ _ _ _ Hw H Ht). lra.
  - cbn [reading]. intros [Hq0 ->]%interpolation_Fin Hx2. rewrite Hwidth.
    assert (0 < q)%Q by (apply Qle_lteq in Hq as [|Hq]; [done|by destruct Hq0]).
    apply nle_zero in E1. apply nle_zero_false in E2.
    apply (Hge c' (t2 - q)%Q x2) in Hx2; [|done|done|done|done|lra].
    assert (t1 <= q)%Q as Htq by lra.
    pose proof (Qdiv_le_width _ _ _ Hw H Htq).
    pose proof (inject_Z_width b next). lra.
  - apply nle_zero_false in E1. apply nle_zero in E2. lra.
  - apply nle_zero_false in E1. intros H1 H2.
    apply IH'; [done|done|lra|lra|done|done].
Qed.

(** On counts a reading is a number or [nan], never an infinity. *)
Lemma reading_not_inf (bs : Series Exact.num) : ∀ t,
  Forall Exact.count (values bs) → (0 <= t)%Q →
  reading (walk bs (Exact.Fin t)) = NaN
  ∨ ∃ x, reading (walk bs (Exact.Fin t)) = Exact.Fin x.
Proof.
  induction bs as [|[b f] bs IH]; intros t Hc Ht; [by left|].
  simpl in Hc. apply Forall_cons in Hc as [(q & -> & Hq) Hc].
  cbn [walk]. rewrite nsub_Fin. destruct (nle _ _) eqn:E.
  - destruct bs as [|[next c] bs]; [by left|]. cbn [reading].
    destruct (Qeq_bool q 0) eqn:E0.
    + left. apply Qeq_bool_iff in E0. apply interpolation_zero; [|done].
      apply nle_zero in E. lra.
    + right. unfold interpolation. exact_ops.
      unfold Exact.add, Exact.div, Exact.mul. rewrite E0. eauto.
  - apply nle_zero_false in E. apply IH; [done|]. lra.
Qed.

(** The target of [percentile] on counts. *)
Lemma target_Fin (s : Series Exact.num) p total :
  sum s = Exact.Fin total →
  target s (Exact.Fin p) = Exact.Fin (p / inject_Z 100 * total).
Proof.
  intros Hs. unfold target, total_count. unfold sum in Hs. by rewrite Hs.
Qed.

Lemma percentile_arg_Fin p :
  (0 <= p)%Q → (p <= inject_Z 100)%Q →
  nle (of_Z 0) (Exact.Fin p) && nle (Exact.Fin p) (of_Z 100) = true.
Proof.
  intros H0 H100. apply andb_true_iff. split; by apply nle_Fin.
Qed.

(** Without rounding [percentile] grows with its argument wherever it yields
    numbers. *)
Lemma percentile_mono (self : Histogram Exact.num) p q rp rq :
  kind self ∈ percentile_kinds →
  Forall Exact.count (values (buckets self)) →
  StronglySorted Z.lt (index (buckets self)) →
  Forall boundary (index (buckets self)) →
  (0 <= p)%Q → (p <= q)%Q → (q <= inject_Z 100)%Q →
  percentile self (Exact.Fin p) = Ok rp →
  percentile self (Exact.Fin q) = Ok rq →
  is_nan rp = false → is_nan rq = false →
  nle rp rq = true.
Proof.
  intros Hk Hc Hs Hb Hp Hpq Hq.
  rewrite !percentile_walk by (done || apply percentile_arg_Fin; lra).
  destruct (buckets self) as [|row bs] eqn:Hbs; [done|].
  destruct (sum_count (row :: bs) Hc) as (total & Hsum & Htot).
  rewrite !(target_Fin _ _ total Hsum).
  assert (0 <= p / inject_Z 100)%Q as Hp' by (apply Qle_shift_div_l; [done|lra]).
  assert (p / inject_Z 100 <= q / inject_Z 100)%Q as Hpq'.
  { unfold Qdiv. by apply Qmult_le_compat_r. }
  assert (0 <= p / inject_Z 100 * total)%Q as H1 by by apply Qmult_le_0_compat.
  assert (p / inject_Z 100 * total <= q / inject_Z 100 * total)%Q as H2
    by by apply Qmult_le_compat_r.
  destruct (reading_not_inf (row :: bs) _ Hc H1) as [->|[x1 Hx1]];
    [by intros [= <-]|].
  destruct (reading_not_inf (row :: bs) (q / inject_Z 100 * total)%Q Hc)
    as [->|[x2 Hx2]]; [lra|by intros _ [= <-]|].
  rewrite Hx1, Hx2. intros [= <-] [= <-] _ _. apply nle_Fin.
  by apply (reading_mono (row :: bs) _ _ _ _ Hc Hs Hb H1 H2).
Qed.

Lemma exact_histogram_values {num} (exact : num → Exact.num)
    (self : Histogram num) :
  values (buckets (exact_histogram exact self)) = exact <$> values (buckets self).
Proof.
  unfold values. simpl. rewrite <- !list_fmap_compose.
  apply list_fmap_ext. by intros i [b c] _.
Qed.

Lemma exact_histogram_index {num} (exact : num → Exact.num)
    (self : Histogram num) :
  index (buckets (exact_histogram exact self)) = index (buckets self).
Proof.
  unfold index. simpl. rewrite <- !list_fmap_compose.
  apply list_fmap_ext. by intros i [b c] _.
Qed.




(** ** Percentiles in the arithmetic of numpy *)

(** X23.  Whatever the counts, a percentile is a float: [percentile] never
    returns an integer, not even on integer counts. *)
Theorem percentile_is_float (self : Histogram numpy.num) p r :
  percentile self p = Ok r → numpy.is_int r = false.
Proof.
  intros H. destruct (percentile_Ok_inv _ _ _ H) as (Hp & Hk & Hb).
  rewrite percentile_walk in H by done.
  destruct (buckets self) as [|row bs]; [done|].
  destruct (walk (row :: bs) (target (row :: bs) p))
    as [[[|[lower freq] [|[next c] rest]] remaining]|];
    by injection H as <-.
Qed.

Lemma percentile_is_float_witness :
  numpy.is_int (numpy.float64 PrimFloat.one) = false.
Proof.
  apply (percentile_is_float (sample 1 1 0) (of_Z 50)). reflexivity.
Defined.

(** X24.  Rounding can move the bucket at which the walk stops.  With counts
    0, 7, 93 seven per cent of the mass are the seven counts of the second
    bucket, and without rounding the 7th percentile is the boundary 2; but
    7/100*100 is 7.000000000000001 in binary64, so the walk passes the second
    bucket, stops at the last one and [percentile] returns not-a-number. *)
Theorem percentile_rounding :
  target (buckets (sample 0 7 93)) (of_Z 7)
    = nadd (of_Z 7) (ndiv (of_Z 1) (of_Z (2 ^ 50))) ∧
  percentile (sample 0 7 93) (of_Z 7) = Ok NaN ∧
  ∃ e, percentile (exact_histogram numpy_exact (sample 0 7 93)) (of_Z 7) = Ok e
       ∧ Exact.equiv e (of_Z 2).
Proof.
  split; [reflexivity|]. split; [reflexivity|].
  eexists. split; [reflexivity|]. by vm_compute.
Qed.

(** X25.  A sum of integer counts beyond the range of [int64] wraps around.
    With counts 2^62, 2^62, 0 the total is -2^63, the target is not positive
    and the percentiles at 0, 50 and 100 are 0, -1 and -2: numbers in
    descending order. *)
Theorem percentile_wraps :
  sum (buckets (sample (2 ^ 62) (2 ^ 62) 0)) = of_Z (- 2 ^ 63) ∧
  percentile (sample (2 ^ 62) (2 ^ 62) 0) (of_Z 0)
    = Ok (numpy.float64 PrimFloat.zero) ∧
  percentile (sample (2 ^ 62) (2 ^ 62) 0) (of_Z 50)
    = Ok (numpy.float64 (PrimFloat.opp PrimFloat.one)) ∧
  percentile (sample (2 ^ 62) (2 ^ 62) 0) (of_Z 100)
    = Ok (numpy.float64 (PrimFloat.opp PrimFloat.two)) ∧
  ¬ monotone_at_tested_points (sample (2 ^ 62) (2 ^ 62) 0).
Proof.
  split; [reflexivity|]. split; [reflexivity|]. split; [reflexivity|].
  split; [reflexivity|].
  intros (r0 & r50 & r100 & H0 & H50 & _ & H & _).
  vm_compute in H0, H50. injection H0 as <-. injection H50 as <-.
  vm_compute in H. discriminate H.
Qed.

(** ** Series: basic facts *)

Section Series_facts.

Context {num : Type} `{!Arithmetic num}.

Lemma index_Series_of_list (data : list num) idx s :
  Series_of_list data idx = Ok s → index s = idx.
Proof.
  unfold Series_of_list, index. case_decide as Hlen.
  - intros [= <-]. apply fst_zip. lia.
  - destruct data as [|x [|??]]; try done.
    intros [= <-]. apply fst_zip. by rewrite length_replicate.
Qed.

Lemma index_reindex (s : Series num) idx s' : reindex s idx = Ok s' → index s' = idx.
Proof.
  unfold reindex. case_decide as Hidx; [by intros [= <-]|].
  case_decide; [|done]. intros [= <-]. unfold index.
  rewrite <- list_fmap_compose. apply list_fmap_id.
Qed.

Lemma index_Series_of_dict (entries : gmap Z num) idx :
  index (Series_of_dict entries idx) = idx.
Proof.
  unfold index, Series_of_dict. rewrite <- list_fmap_compose.
  apply list_fmap_id.
Qed.

Lemma index_fillna (v : num) s : index (fillna v s) = index s.
Proof. unfold index, fillna. by rewrite <- list_fmap_compose. Qed.

Lemma drop_last5_app {A} (l meta : list A) :
  length meta = 5 → drop_last5 (l ++ meta) = l.
Proof.
  intros H. unfold drop_last5. rewrite length_app, H.
  replace (length l + 5 - 5) with (length l) by lia.
  by rewrite take_app_length.
Qed.

(** The row of a sparse histogram at a boundary. *)
Lemma lookup_sparse (entries : gmap Z num) idx (i : nat) b :
  idx !! i = Some b →
  fillna (of_Z 0) (Series_of_dict entries idx) !! i =
    Some (b, match entries !! b with
             | Some v => if is_nan v then of_Z 0 else v
             | None => of_Z 0
             end).
Proof.
  intros H. unfold fillna, Series_of_dict.
  rewrite !list_lookup_fmap, H. simpl.
  destruct (entries !! b); [done|]. simpl. by rewrite is_nan_NaN.
Qed.

Lemma filter_label_absent (s : Series num) l :
  l ∉ index s → filter (λ row : Z * num, row.1 = l) s = [].
Proof.
  unfold index. induction s as [|[l' c'] s IH]; [done|]. simpl.
  intros [Hne Hl]%not_elem_of_cons.
  rewrite filter_cons_False by (simpl; congruence). by apply IH.
Qed.

Lemma filter_label_unique (s : Series num) (i : nat) l c :
  NoDup (index s) → s !! i = Some (l, c) →
  filter (λ row : Z * num, row.1 = l) s = [(l, c)].
Proof.
  unfold index. revert i. induction s as [|[l' c'] s IH]; intros i Hnd Hi; [done|].
  simpl in Hnd. apply NoDup_cons in Hnd as [Hl' Hnd].
  destruct i as [|i]; simpl in Hi.
  - injection Hi as -> ->. rewrite filter_cons_True by done.
    by rewrite filter_label_absent.
  - rewrite filter_cons_False; [by eapply IH|].
    simpl. intros ->. apply Hl'. apply list_elem_of_fmap. exists (l, c).
    split; [done|]. by eapply list_elem_of_lookup_2.
Qed.

Lemma getitem_unique (s : Series num) (i : nat) l c :
  NoDup (index s) → s !! i = Some (l, c) → getitem s l = Ok (Scalar c).
Proof.
  intros Hnd Hi. unfold getitem. by rewrite (filter_label_unique s i l c).
Qed.

(** ** The dict comprehension of the sparse path *)

Lemma entries_of_app (l1 l2 : list (string * num)) acc :
  entries_of (l1 ++ l2) acc = entries_of l1 acc ≫= entries_of l2.
Proof.
  revert acc. induction l1 as [|[k v] l1 IH]; intros acc; [done|].
  simpl. destruct (int k); [apply IH|done].
Qed.

(** A label no key casts to keeps what the accumulator has. *)
Lemma entries_of_absent (items : list (string * num)) : ∀ acc m b,
  entries_of items acc = Ok m →
  (∀ k v, (k, v) ∈ items → int k ≠ Ok b) →
  m !! b = acc !! b.
Proof.
  induction items as [|[k v] items IH]; intros acc m b; simpl.
  - by intros [= <-].
  - destruct (int k) as [i|] eqn:Hk; [|done]. simpl. intros Hm Hno.
    rewrite (IH _ _ _ Hm).
    + apply lookup_insert_ne. intros ->. by apply (Hno k v); [left|].
    + intros k' v' Hin. apply (Hno k' v'). by right.
Qed.

(** A label all of whose keys carry [v] ends with [v]. *)
Lemma entries_of_present (items : list (string * num)) : ∀ acc m b v,
  entries_of items acc = Ok m →
  (∀ k' v', (k', v') ∈ items → int k' = Ok b → v' = v) →
  (∃ k, (k, v) ∈ items ∧ int k = Ok b) ∨ acc !! b = Some v →
  m !! b = Some v.
Proof.
  induction items as [|[k0 v0] items IH]; intros acc m b v; simpl.
  - intros [= <-] _ [(k & Hin & _)|H]; [|done]. by apply elem_of_nil in Hin.
  - destruct (int k0) as [i|] eqn:Hk; [|done]. simpl. intros Hm Hall H.
    apply (IH _ _ _ _ Hm).
    + intros k' v' Hin. apply (Hall k' v'). by right.
    + destruct (decide (i = b)) as [->|Hne].
      * right. rewrite (Hall k0 v0); [apply lookup_insert_eq|left|done].
      * destruct H as [(k & Hin & Hkb)|H].
        -- left. exists k. split; [|done].
           apply elem_of_cons in Hin as [[= -> ->]|Hin]; [congruence|done].
        -- right. by rewrite lookup_insert_ne.
Qed.

(** Two accumulators that agree away from [z] stay so, and fail together. *)
Lemma entries_of_agree z (items : list (string * num)) : ∀ acc acc' m,
  (∀ b, b ≠ z → acc !! b = acc' !! b) →
  entries_of items acc = Ok m →
  ∃ m', entries_of items acc' = Ok m' ∧ ∀ b, b ≠ z → m !! b = m' !! b.
Proof.
  induction items as [|[k v] items IH]; intros acc acc' m Hagree; simpl.
  - intros [= <-]. by exists acc'.
  - destruct (int k) as [i|]; [|done]. simpl. apply IH.
    intros b Hb. destruct (decide (i = b)) as [->|Hne].
    + by rewrite !lookup_insert_eq.
    + rewrite !lookup_insert_ne by done. by apply Hagree.
Qed.

Lemma Series_of_dict_agree z (m m' : gmap Z num) idx :
  z ∉ idx → (∀ b, b ≠ z → m !! b = m' !! b) →
  Series_of_dict m idx = Series_of_dict m' idx.
Proof.
  intros Hz Hagree. unfold Series_of_dict. apply list_fmap_ext.
  intros i b Hb. rewrite Hagree; [done|]. intros ->. apply Hz.
  by eapply list_elem_of_lookup_2.
Qed.

Lemma index_zip_with_add (s1 s2 : Series num) :
  length s1 = length s2 →
  index (zip_with (λ r1 r2 : Z * num, (r1.1, nadd r1.2 r2.2)) s1 s2) = index s1.
Proof.
  unfold index. revert s2.
  induction s1 as [|r1 s1 IH]; intros [|r2 s2]; try done.
  simpl. intros [= H]. by rewrite IH.
Qed.

Lemma values_zip_with_add (s1 s2 : Series num) :
  values (zip_with (λ r1 r2 : Z * num, (r1.1, nadd r1.2 r2.2)) s1 s2)
  = zip_with nadd (values s1) (values s2).
Proof.
  unfold values. revert s2.
  induction s1 as [|r1 s1 IH]; intros [|r2 s2]; try done.
  simpl. by rewrite IH.
Qed.

Lemma count_not_percentile_kind : "count" ∉ percentile_kinds.
Proof. by apply (bool_decide_unpack _). Qed.

Lemma flag_not_percentile_kind : "flag" ∉ percentile_kinds.
Proof. by apply (bool_decide_unpack _). Qed.

Lemma substring_all s : String.substring 0 (String.length s) s = s.
Proof. induction s as [|c s IH]; [done|]. simpl. by rewrite IH. Qed.

(** One leading STARTUP_ is removed. *)
Lemma strip_startup_prefixed nm : strip_startup ("STARTUP_" +:+ nm) = nm.
Proof.
  unfold strip_startup. simpl. destruct nm; simpl; [done|].
  by rewrite substring_all.
Qed.

Lemma strip_startup_plain nm :
  String.prefix "STARTUP_" nm = false → strip_startup nm = nm.
Proof. intros H. unfold strip_startup. by rewrite H. Qed.

Lemma length_drop_last5 {A} (l : list A) : length (drop_last5 l) = length l - 5.
Proof. unfold drop_last5. rewrite length_take. lia. Qed.

Lemma at_label_unique (s : Series num) (j : nat) b c :
  NoDup (index s) → s !! j = Some (b, c) → at_label b s = Some c.
Proof.
  unfold index, at_label. revert j.
  induction s as [|[b' c'] s IH]; intros j Hnd Hj; [done|].
  simpl in Hnd. apply NoDup_cons in Hnd as [Hb' Hnd]. simpl.
  destruct j as [|j]; simpl in Hj.
  - injection Hj as -> ->. by rewrite decide_True.
  - rewrite decide_False.
    + specialize (IH j Hnd Hj). destruct (list_find _ s) as [[n r]|]; [|done].
      simpl in *. by injection IH as ->.
    + simpl. intros ->. apply Hb'. apply list_elem_of_fmap. exists (b, c).
      split; [done|]. by eapply list_elem_of_lookup_2.
Qed.

Lemma at_label_absent (s : Series num) b : b ∉ index s → at_label b s = None.
Proof.
  unfold index, at_label. induction s as [|[b' c'] s IH]; [done|]. simpl.
  intros [Hne Hb]%not_elem_of_cons.
  rewrite decide_False by (simpl; congruence).
  specialize (IH Hb). by destruct (list_find _ s).
Qed.

Lemma int_Raise k e : int k = Raise e → e = ValueError.
Proof.
  unfold int, of_option. intros H.
  destruct (match strip k with EmptyString => _ | _ => _ end); congruence.
Qed.

(** The comprehension raises only [ValueError], and only on a key that does
    not cast. *)
Lemma entries_of_Raise (items : list (string * num)) : ∀ acc e,
  entries_of items acc = Raise e →
  e = ValueError ∧ ¬ Forall (λ kv : string * num, ∃ i, int kv.1 = Ok i) items.
Proof.
  induction items as [|[k v] items IH]; intros acc e; [done|]. simpl.
  destruct (int k) as [i|e'] eqn:Hk; simpl.
  - intros [-> Hno]%IH. split; [done|]. intros Hall. apply Hno.
    by apply Forall_cons in Hall as [_ ?].
  - intros [= <-]. split.
    + by apply int_Raise in Hk.
    + intros Hall. apply Forall_cons in Hall as [[i Hi] _]. simpl in Hi.
      congruence.
Qed.

Lemma entries_of_Ok (items : list (string * num)) : ∀ acc m,
  entries_of items acc = Ok m →
  Forall (λ kv : string * num, ∃ i, int kv.1 = Ok i) items.
Proof.
  induction items as [|[k v] items IH]; intros acc m; [constructor|].
  simpl. destruct (int k) as [i|] eqn:Hk; [|done]. simpl. intros He.
  constructor; [by exists i|by eapply IH].
Qed.

Lemma entries_of_last (before : list (string * num)) k v after b : ∀ m,
  entries_of (before ++ (k, v) :: after) ∅ = Ok m →
  int k = Ok b →
  (∀ k' v', (k', v') ∈ after → int k' ≠ Ok b) →
  m !! b = Some v.
Proof.
  intros m Hm Hk Hafter. rewrite entries_of_app in Hm.
  destruct (entries_of before ∅) as [m1|]; [|done]. simpl in Hm.
  rewrite Hk in Hm. simpl in Hm.
  rewrite (entries_of_absent _ _ _ _ Hm Hafter). apply lookup_insert_eq.
Qed.

Lemma getitem_absent (s : Series num) l :
  getitem s l = Raise LookupError ↔ l ∉ index s.
Proof.
  unfold getitem. split.
  - intros H Hin. apply list_elem_of_fmap in Hin as ([l' c] & -> & Hin).
    assert ((l', c) ∈ filter (λ row : Z * num, row.1 = l') s) as Hf
      by (by apply list_elem_of_filter).
    destruct (filter _ s) as [|r [|r' rs]]; [by apply elem_of_nil in Hf|done..].
  - intros H. by rewrite filter_label_absent.
Qed.

Lemma zip_with_add_comm (s1 s2 : Series num) :
  index s1 = index s2 →
  zip_with (λ r1 r2 : Z * num, (r1.1, nadd r1.2 r2.2)) s1 s2
  = zip_with (λ r1 r2 : Z * num, (r1.1, nadd r1.2 r2.2)) s2 s1.
Proof.
  unfold index. revert s2.
  induction s1 as [|[b1 c1] s1 IH]; intros [|[b2 c2] s2]; try done.
  simpl. intros [= -> H]. by rewrite nadd_comm, IH.
Qed.

Lemma index_length (s1 s2 : Series num) :
  index s1 = index s2 → length s1 = length s2.
Proof.
  intros H. apply (f_equal length) in H. unfold index in H.
  by rewrite !length_fmap in H.
Qed.

(** The rows of a Series after [reindex]. *)
Lemma reindex_lookup (s s' : Series num) idx (i : nat) b :
  reindex s idx = Ok s' → NoDup (index s) → idx !! i = Some b →
  (∀ (j : nat) c, s !! j = Some (b, c) → s' !! i = Some (b, c)) ∧
  (b ∉ index s → s' !! i = Some (b, NaN)).
Proof.
  unfold reindex. intros E Hnd Hb. case_decide as Hidx.
  - injection E as <-. rewrite <- Hidx in Hb. unfold index in Hb.
    rewrite list_lookup_fmap in Hb.
    destruct (s !! i) as [[b' c']|] eqn:Hi; [|done]. injection Hb as ->.
    split.
    + intros j c Hj. f_equal. f_equal.
      pose proof (at_label_unique s i b c' Hnd Hi) as H1.
      pose proof (at_label_unique s j b c Hnd Hj) as H2. congruence.
    + intros Hno. destruct Hno. apply list_elem_of_fmap. exists (b, c').
      split; [done|]. by eapply list_elem_of_lookup_2.
  - rewrite decide_True in E by done. injection E as <-.
    rewrite list_lookup_fmap, Hb. simpl. split.
    + intros j c Hj. by rewrite (at_label_unique s j b c).
    + intros Hno. by rewrite at_label_absent.
Qed.

Lemma reindex_NoDup (s : Series num) idx :
  NoDup (index s) → ∃ s', reindex s idx = Ok s'.
Proof.
  intros Hnd. unfold reindex. case_decide; [eauto|].
  rewrite decide_True by done. eauto.
Qed.

Lemma NoDup_drop_last5 (s : Series num) :
  NoDup (index s) → NoDup (index (drop_last5 s)).
Proof.
  unfold index, drop_last5. rewrite fmap_take.
  intros H. exact (sublist_NoDup _ _ H (sublist_take _ _)).
Qed.

Lemma zip_with_add_lookup (s1 s2 : Series num) (j : nat) b c1 c2 :
  s1 !! j = Some (b, c1) → s2 !! j = Some (b, c2) →
  zip_with (λ r1 r2 : Z * num, (r1.1, nadd r1.2 r2.2)) s1 s2 !! j
  = Some (b, nadd c1 c2).
Proof.
  intros H1 H2. rewrite lookup_zip_with, H1. simpl. by rewrite H2.
Qed.

End Series_facts.

(** ** Claims on [get_value] *)

Section Get_value.

Context {num : Type} `{!Arithmetic num}.

(** C4, amended.  For a histogram of kind [count] with unique boundaries,
    [get_value] returns, whatever [only_median] is, the count of the bucket
    whose boundary key is 0, wherever that bucket lies; it is the first bucket
    when the first boundary of the schema is 0. *)
Theorem get_value_count self only_median (i : nat) c :
  kind self = "count" →
  NoDup (index (buckets self)) →
  buckets self !! i = Some (0%Z, c) →
  get_value self only_median = Ok (Number c).
Proof.
  intros Hk Hnd Hi. unfold get_value. rewrite Hk.
  rewrite (bool_decide_eq_false_2 _ count_not_percentile_kind).
  by rewrite (getitem_unique _ i 0 c).
Qed.

(** C5, amended.  For a histogram of kind [flag] with unique boundaries,
    [get_value] returns, whatever [only_median] is, true if the bucket whose
    boundary key is 1 has count exactly 1 and false otherwise; that bucket is
    the second one when the second boundary of the schema is 1. *)
Theorem get_value_flag self only_median (i : nat) c :
  kind self = "flag" →
  NoDup (index (buckets self)) →
  buckets self !! i = Some (1%Z, c) →
  get_value self only_median = Ok (Boolean (neqb c (of_Z 1))).
Proof.
  intros Hk Hnd Hi. unfold get_value. rewrite Hk.
  rewrite (bool_decide_eq_false_2 _ flag_not_percentile_kind).
  by rewrite (getitem_unique _ i 1 c).
Qed.

(** X14.  Every reading of a histogram whose kind is none of the six known
    kinds raises [AssertionError]: [get_value] for both values of
    [only_median], and [percentile] for every argument. *)
Theorem unsupported_kind self :
  kind self ∉ known_kinds →
  (∀ only_median, get_value self only_median = Raise AssertionError) ∧
  (∀ p, percentile self p = Raise AssertionError).
Proof.
  unfold known_kinds. intros [Hp Hcf]%not_elem_of_app.
  apply not_elem_of_cons in Hcf as [Hc Hf%not_elem_of_cons]. destruct Hf as [Hf _].
  split.
  - intros om. unfold get_value. rewrite (bool_decide_eq_false_2 _ Hp).
    rewrite (proj2 (String.eqb_neq _ _) Hc).
    by rewrite (proj2 (String.eqb_neq _ _) Hf).
  - intros p. unfold percentile.
    destruct (nle (of_Z 0) p && nle p (of_Z 100)); [|done]. simpl.
    by rewrite (bool_decide_eq_false_2 _ Hp).
Qed.

(** X15.  On a count histogram [get_value] raises [LookupError] exactly when
    no boundary is 0, and on a flag histogram exactly when no boundary is 1:
    the scalar is looked up under the boundary key, never by position. *)
Theorem get_value_missing_key self only_median :
  (kind self = "count" →
   (get_value self only_median = Raise LookupError ↔
    0%Z ∉ index (buckets self))) ∧
  (kind self = "flag" →
   (get_value self only_median = Raise LookupError ↔
    1%Z ∉ index (buckets self))).
Proof.
  split; intros Hk; unfold get_value; rewrite Hk.
  - rewrite (bool_decide_eq_false_2 _ count_not_percentile_kind). simpl.
    rewrite <- getitem_absent.
    destruct (getitem (buckets self) 0) as [[x|rows]|e]; simpl; [done..|].
    split; congruence.
  - rewrite (bool_decide_eq_false_2 _ flag_not_percentile_kind). simpl.
    rewrite <- getitem_absent.
    destruct (getitem (buckets self) 1) as [[x|rows]|e]; simpl; [done..|].
    split; congruence.
Qed.

End Get_value.

(** C4, as stated, fails: a count histogram whose boundaries are 1, 2, 3 has
    its first boundary at position 0, but [get_value] looks for the boundary
    key 0 and raises. *)
Lemma returns_first_count_fails :
  __init__ sample_fetch "COUNT_FROM_1" (Dense (counts [7; 0; 0]%Z))
    default_revision
  = Ok (histogram_of (schema "count" [1; 2; 3]%Z) "COUNT_FROM_1" [7; 0; 0]%Z) ∧
  get_value (histogram_of (schema "count" [1; 2; 3]%Z) "COUNT_FROM_1"
               [7; 0; 0]%Z) false
  = Raise LookupError ∧
  ¬ returns_first_count
      (histogram_of (schema "count" [1; 2; 3]%Z) "COUNT_FROM_1" [7; 0; 0]%Z).
Proof.
  split; [reflexivity|]. split; [reflexivity|].
  intros H. destruct (H false) as (b & c & _ & Hv). discriminate Hv.
Qed.

Lemma get_value_count_witness :
  get_value (histogram_of (schema "count" [0; 1; 2]%Z) "COUNT" [7; 0; 0]%Z) true
  = Ok (Number (of_Z 7)).
Proof.
  apply (get_value_count
           (histogram_of (schema "count" [0; 1; 2]%Z) "COUNT" [7; 0; 0]%Z)
           true 0 (of_Z 7)).
  - reflexivity.
  - by apply (bool_decide_unpack _).
  - reflexivity.
Defined.

(** C5, as stated, fails: in a flag histogram whose boundaries are 1, 2, 3
    the bucket at position 1 holds 0, but [get_value] reads the bucket whose
    boundary key is 1, which holds 1, and answers true. *)
Lemma returns_flag_at_position_1_fails :
  __init__ sample_fetch "FLAG_FROM_1" (Dense (counts [1; 0; 0]%Z))
    default_revision
  = Ok (histogram_of (schema "flag" [1; 2; 3]%Z) "FLAG_FROM_1" [1; 0; 0]%Z) ∧
  get_value (histogram_of (schema "flag" [1; 2; 3]%Z) "FLAG_FROM_1"
               [1; 0; 0]%Z) false
  = Ok (Boolean true) ∧
  ¬ returns_flag_at_position_1
      (histogram_of (schema "flag" [1; 2; 3]%Z) "FLAG_FROM_1" [1; 0; 0]%Z).
Proof.
  split; [reflexivity|]. split; [reflexivity|].
  intros H. destruct (H false) as (b & c & Hb & Hv).
  injection Hb as <- <-. discriminate Hv.
Qed.

Lemma get_value_flag_witness :
  get_value (histogram_of (schema "flag" [0; 1; 2]%Z) "FLAG" [0; 1; 0]%Z) false
  = Ok (Boolean true).
Proof.
  change (Boolean true)
    with (Boolean (num := numpy.num) (neqb (of_Z 1 : numpy.num) (of_Z 1))).
  apply (get_value_flag
           (histogram_of (schema "flag" [0; 1; 2]%Z) "FLAG" [0; 1; 0]%Z)
           false 1 (of_Z 1)).
  - reflexivity.
  - by apply (bool_decide_unpack _).
  - reflexivity.
Defined.

Lemma unsupported_kind_witness :
  (∀ only_median,
     get_value (histogram_of (schema "categorical" [0; 1; 2]%Z) "LABELS"
                  [1; 0; 0]%Z) only_median = Raise AssertionError) ∧
  (∀ p, percentile (histogram_of (schema "categorical" [0; 1; 2]%Z) "LABELS"
                      [1; 0; 0]%Z) p = Raise AssertionError).
Proof.
  apply (unsupported_kind
           (histogram_of (schema "categorical" [0; 1; 2]%Z) "LABELS" [1; 0; 0]%Z)).
  by apply (bool_decide_unpack _).
Defined.

(** ** Claims on construction and on sums *)

Section Construction.

Context {num : Type} `{!Arithmetic num}.

Variable fetch : string → result (gmap string histogram_tools.Histogram).
Variable align_add : Series num → Series num → result (Series num).

(** The constructor once the schema is resolved. *)
Lemma init_resolved nm inst rev doc d :
  fetch rev = Ok doc → doc !! strip_startup nm = Some d →
  __init__ fetch nm inst rev =
    (s ← match inst with
         | Dense l =>
             Series_of_list
               (if decide (length l = histogram_tools.n_buckets d)
                then l else drop_last5 l)
               (histogram_tools.ranges d)
         | DenseSeries s =>
             reindex
               (if decide (length s = histogram_tools.n_buckets d)
                then s else drop_last5 s)
               (histogram_tools.ranges d)
         | Mapping fields =>
             items ← of_option LookupError (fields !! "values");
             entries ← entries_of items ∅;
             Ok (fillna (of_Z 0)
                   (Series_of_dict entries (histogram_tools.ranges d)))
         end;
     Ok {| definition := d; kind := histogram_tools.kind d; name := nm;
           buckets := s |}).
Proof. intros Hf Hd. unfold __init__. rewrite Hf. simpl. by rewrite Hd. Qed.

(** A histogram that was constructed has a resolved schema. *)
Lemma init_Ok nm inst rev h :
  __init__ fetch nm inst rev = Ok h →
  ∃ doc d, fetch rev = Ok doc ∧ doc !! strip_startup nm = Some d.
Proof.
  unfold __init__. destruct (fetch rev) as [doc|]; [|done]. simpl.
  destruct (doc !! strip_startup nm) as [d|] eqn:Hd; [|done].
  intros _. by exists doc, d.
Qed.

Lemma init_index nm inst rev h :
  __init__ fetch nm inst rev = Ok h →
  index (buckets h) = histogram_tools.ranges (definition h).
Proof.
  intros H. destruct (init_Ok _ _ _ _ H) as (doc & d & Hf & Hd).
  rewrite (init_resolved _ _ _ _ _ Hf Hd) in H.
  destruct inst as [l|s|fields]; simpl in H.
  - destruct (Series_of_list _ _) as [s'|] eqn:E; [|done].
    injection H as <-. simpl. by eapply index_Series_of_list.
  - destruct (reindex _ _) as [s'|] eqn:E; [|done].
    injection H as <-. simpl. by eapply index_reindex.
  - destruct (fields !! "values") as [items|]; [|done]. simpl in H.
    destruct (entries_of items ∅) as [entries|]; [|done].
    injection H as <-. simpl.
    by rewrite index_fillna, index_Series_of_dict.
Qed.

Lemma init_sparse nm rev fields items h :
  __init__ fetch nm (Mapping fields) rev = Ok h →
  fields !! "values" = Some items →
  ∃ entries, entries_of items ∅ = Ok entries ∧
    buckets h = fillna (of_Z 0)
                  (Series_of_dict entries
                     (histogram_tools.ranges (definition h))).
Proof.
  intros H Hv. destruct (init_Ok _ _ _ _ H) as (doc & d & Hf & Hd).
  rewrite (init_resolved _ _ _ _ _ Hf Hd) in H. simpl in H.
  rewrite Hv in H. simpl in H.
  destruct (entries_of items ∅) as [entries|]; [|done].
  injection H as <-. by exists entries.
Qed.

Lemma entries_of_total items :
  Forall (λ kv : string * num, ∃ i, int kv.1 = Ok i) items →
  ∀ acc, ∃ m, entries_of items acc = Ok m.
Proof.
  induction 1 as [|[k v] items [i Hi] _ IH]; intros acc; [by exists acc|].
  simpl in *. rewrite Hi. apply IH.
Qed.

(** C2, amended.  Construction from a sparse input casts each key to an
    integer and matches it against the boundaries themselves, not against
    their positions: a boundary that no key casts to gets count exactly 0,
    and a boundary that a key casts to gets the count of that key, provided
    the count is a number and no other key casts to the same boundary with
    another count. *)
Theorem sparse_by_label nm rev fields items h :
  __init__ fetch nm (Mapping fields) rev = Ok h →
  fields !! "values" = Some items →
  index (buckets h) = histogram_tools.ranges (definition h) ∧
  ∀ (i : nat) b, histogram_tools.ranges (definition h) !! i = Some b →
    (∀ k v, (k, v) ∈ items → int k = Ok b → is_nan v = false →
       (∀ k' v', (k', v') ∈ items → int k' = Ok b → v' = v) →
       buckets h !! i = Some (b, v)) ∧
    ((∀ k v, (k, v) ∈ items → int k ≠ Ok b) →
     buckets h !! i = Some (b, of_Z 0)).
Proof.
  intros H Hv. split; [by eapply init_index|].
  destruct (init_sparse _ _ _ _ _ H Hv) as (entries & He & ->).
  intros i b Hb. rewrite (lookup_sparse _ _ _ _ Hb). split.
  - intros k v Hin Hk Hnan Hall.
    rewrite (entries_of_present _ _ _ _ _ He Hall) by eauto.
    by rewrite Hnan.
  - intros Hno. rewrite (entries_of_absent _ _ _ _ He Hno).
    by rewrite lookup_empty.
Qed.

(** C3.  A dense input of length [bucket_count + 5] yields the histogram of
    its first [bucket_count] values: the five trailing values are
    discarded.  This holds for lists and arrays and for Series alike. *)
Theorem trailing_metadata_ignored nm rev doc d
    (l meta : list num) (s smeta : Series num) :
  fetch rev = Ok doc → doc !! strip_startup nm = Some d →
  length l = histogram_tools.n_buckets d → length meta = 5 →
  length s = histogram_tools.n_buckets d → length smeta = 5 →
  __init__ fetch nm (Dense (l ++ meta)) rev = __init__ fetch nm (Dense l) rev ∧
  __init__ fetch nm (DenseSeries (s ++ smeta)) rev
    = __init__ fetch nm (DenseSeries s) rev.
Proof.
  intros Hf Hd Hl Hmeta Hs Hsmeta.
  rewrite !(init_resolved _ _ _ _ _ Hf Hd).
  rewrite (decide_False (P := length (l ++ meta) = _))
    by (rewrite length_app; lia).
  rewrite (decide_False (P := length (s ++ smeta) = _))
    by (rewrite length_app; lia).
  rewrite !decide_True by done.
  by rewrite !drop_last5_app.
Qed.

(** C10.  A key of a sparse input that casts to an integer matching no
    boundary of the schema raises nothing and is dropped: the histogram is
    the one built without that entry, it has every bucket of the schema, and
    the boundaries no key casts to hold 0. *)
Theorem unmatched_key_dropped nm rev doc d fields before k v after z :
  fetch rev = Ok doc → doc !! strip_startup nm = Some d →
  fields !! "values" = Some (before ++ (k, v) :: after) →
  Forall (λ kv : string * num, ∃ i, int kv.1 = Ok i)
    (before ++ (k, v) :: after) →
  int k = Ok z → z ∉ histogram_tools.ranges d →
  ∃ h, __init__ fetch nm (Mapping fields) rev = Ok h ∧
       __init__ fetch nm (Mapping (<["values" := before ++ after]> fields)) rev
         = Ok h ∧
       index (buckets h) = histogram_tools.ranges d ∧
       ∀ (i : nat) b, histogram_tools.ranges d !! i = Some b →
         (∀ k' v', (k', v') ∈ before ++ after → int k' ≠ Ok b) →
         buckets h !! i = Some (b, of_Z 0).
Proof.
  intros Hf Hd Hv Hall Hk Hz.
  destruct (entries_of_total _ Hall ∅) as [m Hm].
  pose proof Hm as Hm'. rewrite entries_of_app in Hm'.
  destruct (entries_of before ∅) as [m1|] eqn:Hm1; [|done].
  simpl in Hm'. rewrite Hk in Hm'. simpl in Hm'.
  destruct (entries_of_agree z after (<[z:=v]> m1) m1 m) as (m' & Hm2 & Hagree);
    [by intros b Hb; rewrite lookup_insert_ne|done|].
  assert (entries_of (before ++ after) ∅ = Ok m') as Hba
    by (by rewrite entries_of_app, Hm1).
  eexists. rewrite !(init_resolved _ _ _ _ _ Hf Hd). simpl.
  rewrite Hv, lookup_insert_eq. simpl. rewrite Hm, Hba. simpl.
  rewrite (Series_of_dict_agree z m m') by done.
  split; [done|]. split; [done|]. simpl.
  split; [by rewrite index_fillna, index_Series_of_dict|].
  intros i b Hb Hno. rewrite (lookup_sparse _ _ _ _ Hb).
  by rewrite (entries_of_absent _ _ _ _ Hba Hno), lookup_empty.
Qed.

(** C8.  A histogram that was constructed, by the constructor or as a sum,
    over a schema with as many boundaries as buckets, has [bucket_count]
    buckets, and their keys are the boundaries of the schema in the same
    order. *)
Theorem buckets_follow_schema h :
  (∃ nm inst rev, __init__ fetch nm inst rev = Ok h) ∨
  (∃ a b, __add__ fetch align_add a b = Ok h) →
  length (histogram_tools.ranges (definition h))
    = histogram_tools.n_buckets (definition h) →
  follows_schema h.
Proof.
  intros H Hn.
  assert (index (buckets h) = histogram_tools.ranges (definition h)) as Hi.
  { destruct H as [(nm & inst & rev & H)|(a & b & H)].
    - by eapply init_index.
    - unfold __add__ in H. destruct (Series_add _ _ _) as [s|]; [|done].
      by eapply init_index. }
  split; [|done]. rewrite <- Hn, <- Hi. unfold index. by rewrite length_fmap.
Qed.

Lemma init_fields nm inst rev h :
  __init__ fetch nm inst rev = Ok h →
  ∃ doc, fetch rev = Ok doc ∧
         doc !! strip_startup nm = Some (definition h) ∧
         kind h = histogram_tools.kind (definition h) ∧ name h = nm.
Proof.
  intros H. destruct (init_Ok _ _ _ _ H) as (doc & d & Hf & Hd).
  rewrite (init_resolved _ _ _ _ _ Hf Hd) in H.
  destruct (match inst with Dense _ => _ | _ => _ end) as [s|]; [|done].
  injection H as <-. by exists doc.
Qed.

(** The sum of two histograms over the boundaries the default revision gives
    to the name of the first. *)
Lemma add_resolved a b doc d :
  index (buckets a) = index (buckets b) →
  fetch default_revision = Ok doc →
  doc !! strip_startup (name a) = Some d →
  histogram_tools.ranges d = index (buckets a) →
  histogram_tools.n_buckets d = length (histogram_tools.ranges d) →
  __add__ fetch align_add a b =
    Ok {| definition := d; kind := histogram_tools.kind d; name := name a;
          buckets := zip_with (λ r1 r2 : Z * num, (r1.1, nadd r1.2 r2.2))
                       (buckets a) (buckets b) |}.
Proof.
  intros Hab Hf Hd Hr Hn. pose proof (index_length _ _ Hab) as Hlen.
  unfold __add__, Series_add. rewrite decide_True by done. simpl.
  set (s := zip_with _ _ _).
  assert (index s = index (buckets a)) as Hs by by apply index_zip_with_add.
  rewrite (init_resolved _ _ _ _ _ Hf Hd). simpl.
  assert (length s = histogram_tools.n_buckets d) as Hsn.
  { rewrite Hn, Hr, <- Hs. unfold index. by rewrite length_fmap. }
  rewrite decide_True by done. unfold reindex.
  by rewrite decide_True by congruence.
Qed.

(** X1.  A dense input with exactly [n_buckets] values is taken as it is: the
    histogram holds the input values position by position under the
    boundaries of the schema, and keeps the name it was given. *)
Theorem dense_positional nm rev doc d l :
  fetch rev = Ok doc → doc !! strip_startup nm = Some d →
  length (histogram_tools.ranges d) = histogram_tools.n_buckets d →
  length l = histogram_tools.n_buckets d →
  ∃ h, __init__ fetch nm (Dense l) rev = Ok h ∧
       definition h = d ∧ kind h = histogram_tools.kind d ∧ name h = nm ∧
       index (buckets h) = histogram_tools.ranges d ∧
       values (buckets h) = l.
Proof.
  intros Hf Hd Hr Hl. rewrite (init_resolved _ _ _ _ _ Hf Hd).
  rewrite decide_True by done. unfold Series_of_list.
  rewrite decide_True by congruence. simpl. eexists. split; [done|]. simpl.
  repeat split.
  - apply fst_zip. lia.
  - apply snd_zip. lia.
Qed.

(** X2.  A dense input whose length is not [n_buckets] loses its last five
    values; when two or more values remain and their number is not the number
    of boundaries, construction raises [ValueError]. *)
Theorem dense_wrong_length nm rev doc d l :
  fetch rev = Ok doc → doc !! strip_startup nm = Some d →
  length l ≠ histogram_tools.n_buckets d →
  2 ≤ length l - 5 →
  length l - 5 ≠ length (histogram_tools.ranges d) →
  __init__ fetch nm (Dense l) rev = Raise ValueError.
Proof.
  intros Hf Hd Hl H2 Hne. rewrite (init_resolved _ _ _ _ _ Hf Hd).
  rewrite decide_False by done. unfold Series_of_list.
  pose proof (length_drop_last5 l) as Hlen.
  rewrite decide_False by lia.
  destruct (drop_last5 l) as [|x [|y rest]]; simpl in Hlen; [lia|lia|done].
Qed.

(** X3.  A name made of the prefix STARTUP_ and of a name that does not
    itself start with STARTUP_ is resolved without the prefix (one prefix is
    removed, not several): the histogram is the one of the plain name, under
    the name as given. *)
Theorem startup_prefix nm inst rev :
  String.prefix "STARTUP_" nm = false →
  __init__ fetch ("STARTUP_" +:+ nm) inst rev =
    (λ h, {| definition := definition h; kind := kind h;
             name := "STARTUP_" +:+ nm; buckets := buckets h |})
      <$> __init__ fetch nm inst rev.
Proof.
  intros Hp. unfold __init__.
  rewrite strip_startup_prefixed, (strip_startup_plain nm Hp).
  destruct (fetch rev) as [doc|]; [|done]. simpl.
  destruct (doc !! nm) as [d|]; [|done]. simpl.
  by destruct (match inst with Dense _ => _ | _ => _ end).
Qed.


(** X5.  No bucket of a histogram built from a sparse input is not-a-number:
    missing boundaries and not-a-number counts are filled with 0. *)
Theorem sparse_no_nan nm rev fields h :
  __init__ fetch nm (Mapping fields) rev = Ok h →
  Forall (λ x, is_nan x = false) (values (buckets h)).
Proof.
  intros H. destruct (init_Ok _ _ _ _ H) as (doc & d & Hf & Hd).
  rewrite (init_resolved _ _ _ _ _ Hf Hd) in H. simpl in H.
  destruct (fields !! "values") as [items|]; [|done]. simpl in H.
  destruct (entries_of items ∅) as [m|]; [|done]. injection H as <-. simpl.
  unfold values, fillna. rewrite <- list_fmap_compose.
  apply Forall_fmap, Forall_forall. intros [b c] _. simpl.
  destruct (is_nan c) eqn:E; [apply is_nan_zero|done].
Qed.

(** X6.  When several keys of a sparse input cast to the same boundary, the
    one that comes last in the iteration over the input decides the count; a
    count that is not-a-number is stored as 0. *)
Theorem sparse_last_key_wins nm rev fields before k v after h (i : nat) b :
  __init__ fetch nm (Mapping fields) rev = Ok h →
  fields !! "values" = Some (before ++ (k, v) :: after) →
  int k = Ok b →
  (∀ k' v', (k', v') ∈ after → int k' ≠ Ok b) →
  histogram_tools.ranges (definition h) !! i = Some b →
  buckets h !! i = Some (b, if is_nan v then of_Z 0 else v).
Proof.
  intros H Hv Hk Hafter Hb.
  destruct (init_sparse _ _ _ _ _ H Hv) as (m & Hm & ->).
  rewrite (lookup_sparse _ _ _ _ Hb).
  by rewrite (entries_of_last _ _ _ _ _ _ Hm Hk Hafter).
Qed.

(** X7.  A Series given as dense input, with [n_buckets] rows and unique
    labels, is matched to the boundaries by label, not by position: a boundary
    that is a label of the input gets the value under that label, any other
    boundary gets not-a-number. *)
Theorem dense_series_by_label nm rev s h (i : nat) b :
  __init__ fetch nm (DenseSeries s) rev = Ok h →
  length s = histogram_tools.n_buckets (definition h) →
  NoDup (index s) →
  histogram_tools.ranges (definition h) !! i = Some b →
  (∀ (j : nat) c, s !! j = Some (b, c) → buckets h !! i = Some (b, c)) ∧
  (b ∉ index s → buckets h !! i = Some (b, NaN)).
Proof.
  intros H Hlen Hnd Hb.
  destruct (init_Ok _ _ _ _ H) as (doc & d & Hf & Hd).
  rewrite (init_resolved _ _ _ _ _ Hf Hd) in H. simpl in H.
  destruct (reindex _ _) as [s'|] eqn:E; [|done]. injection H as <-.
  simpl in *. rewrite decide_True in E by done. unfold reindex in E.
  case_decide as Hidx.
  - injection E as <-. rewrite <- Hidx in Hb. unfold index in Hb.
    rewrite list_lookup_fmap in Hb.
    destruct (s !! i) as [[b' c']|] eqn:Hi; [|done]. injection Hb as ->.
    split.
    + intros j c Hj. f_equal. f_equal.
      pose proof (at_label_unique s i b c' Hnd Hi) as H1.
      pose proof (at_label_unique s j b c Hnd Hj) as H2. congruence.
    + intros Hno. destruct Hno. apply list_elem_of_fmap. exists (b, c').
      split; [done|]. by eapply list_elem_of_lookup_2.
  - rewrite decide_True in E by done. injection E as <-.
    rewrite list_lookup_fmap, Hb. simpl. split.
    + intros j c Hj. by rewrite (at_label_unique s j b c).
    + intros Hno. by rewrite at_label_absent.
Qed.

(** X16.  Two histograms constructed under the same name at the default
    revision can always be summed, when the schema has as many boundaries as
    buckets: the sum has the schema and the kind of the operands, its buckets
    follow the schema, and each count is what [+] yields on the two counts
    (in numpy a sum of two [int64] wraps around, a sum of floats is
    rounded). *)
Theorem add_of_constructed nm ia ib a b :
  __init__ fetch nm ia default_revision = Ok a →
  __init__ fetch nm ib default_revision = Ok b →
  length (histogram_tools.ranges (definition a))
    = histogram_tools.n_buckets (definition a) →
  ∃ h, __add__ fetch align_add a b = Ok h ∧ combined a b h ∧
       definition h = definition a ∧ kind h = kind a ∧ follows_schema h.
Proof.
  intros Ha Hb Hn.
  destruct (init_fields _ _ _ _ Ha) as (doc & Hf & Hd & Hk & Hna).
  destruct (init_fields _ _ _ _ Hb) as (doc' & Hf' & Hd' & _ & _).
  assert (definition b = definition a) as Hdef by congruence.
  pose proof (init_index _ _ _ _ Ha) as Hia.
  pose proof (init_index _ _ _ _ Hb) as Hib.
  assert (index (buckets a) = index (buckets b)) as Hab by congruence.
  rewrite <- Hna in Hd.
  rewrite (add_resolved a b doc (definition a)) by done.
  eexists. split; [done|]. unfold combined, follows_schema. simpl.
  repeat split; try done.
  - by apply index_zip_with_add, index_length.
  - apply values_zip_with_add.
  - rewrite length_zip_with, <- (index_length _ _ Hab), Nat.min_id.
    rewrite <- Hn, <- Hia. unfold index. by rewrite length_fmap.
  - rewrite <- Hia. by apply index_zip_with_add, index_length.
Qed.

(** X17.  The sum is commutative up to the name it keeps: for histograms with
    identical boundaries whose names resolve alike, [b + a] is [a + b] under
    the name of [b], and fails exactly as [a + b] does. *)
Theorem add_commutes a b :
  index (buckets a) = index (buckets b) →
  strip_startup (name a) = strip_startup (name b) →
  __add__ fetch align_add b a =
    (λ h, {| definition := definition h; kind := kind h; name := name b;
             buckets := buckets h |})
      <$> __add__ fetch align_add a b.
Proof.
  intros Hab Hn. unfold __add__, Series_add.
  rewrite !decide_True by done. simpl.
  rewrite (zip_with_add_comm (buckets b) (buckets a)) by done.
  unfold __init__. rewrite Hn.
  destruct (fetch default_revision) as [doc|]; [|done]. simpl.
  destruct (doc !! strip_startup (name b)) as [d|]; [|done]. simpl.
  by destruct (reindex _ _).
Qed.

(** X18.  For histograms with identical, unique boundaries the sum succeeds
    exactly when the default revision resolves the name of the first operand;
    the revision and the schema the operands were built with play no part. *)
Theorem add_succeeds_iff a b :
  index (buckets a) = index (buckets b) →
  NoDup (index (buckets a)) →
  (∃ h, __add__ fetch align_add a b = Ok h) ↔
  ∃ doc d, fetch default_revision = Ok doc ∧
           doc !! strip_startup (name a) = Some d.
Proof.
  intros Hab Hnd. unfold __add__, Series_add.
  rewrite decide_True by done. simpl. split.
  - intros [h H]. by eapply init_Ok.
  - intros (doc & d & Hf & Hd). rewrite (init_resolved _ _ _ _ _ Hf Hd).
    simpl. set (s := zip_with _ _ _).
    assert (NoDup (index s)) as Hs.
    { unfold s. by rewrite index_zip_with_add by by apply index_length. }
    destruct (reindex_NoDup
                (if decide (length s = histogram_tools.n_buckets d)
                 then s else drop_last5 s) (histogram_tools.ranges d))
      as [s' ->]; [|simpl; eauto].
    case_decide; [done|by apply NoDup_drop_last5].
Qed.

(** X19.  The sum is laid out on the boundaries of the default revision: when
    the operands have as many buckets as that schema, a boundary of the schema
    that is a boundary of the operands holds what [+] yields on their two
    counts, and a boundary the operands do not have holds not-a-number. *)
Theorem add_reindexes a b doc d h (i : nat) bd :
  index (buckets a) = index (buckets b) →
  NoDup (index (buckets a)) →
  fetch default_revision = Ok doc →
  doc !! strip_startup (name a) = Some d →
  length (buckets a) = histogram_tools.n_buckets d →
  __add__ fetch align_add a b = Ok h →
  histogram_tools.ranges d !! i = Some bd →
  (∀ (j : nat) ca cb,
     buckets a !! j = Some (bd, ca) → buckets b !! j = Some (bd, cb) →
     buckets h !! i = Some (bd, nadd ca cb)) ∧
  (bd ∉ index (buckets a) → buckets h !! i = Some (bd, NaN)).
Proof.
  intros Hab Hnd Hf Hd Hlen H Hi. pose proof (index_length _ _ Hab) as Hl.
  unfold __add__, Series_add in H. rewrite decide_True in H by done.
  simpl in H. rewrite (init_resolved _ _ _ _ _ Hf Hd) in H. simpl in H.
  set (s := zip_with _ _ _) in H.
  assert (index s = index (buckets a)) as Hs by by apply index_zip_with_add.
  rewrite decide_True in H
    by (unfold s; rewrite length_zip_with, <- Hl, Nat.min_id; done).
  destruct (reindex s _) as [s'|] eqn:E; [|done]. injection H as <-. simpl.
  destruct (reindex_lookup s s' _ i bd E) as [Hin Hout]; [congruence|done|].
  split.
  - intros j ca cb Ha Hb. apply (Hin j). by apply zip_with_add_lookup.
  - intros Hno. apply Hout. by rewrite Hs.
Qed.

End Construction.

(** C2, as stated, fails: in the schema with boundaries 0, 1, 2, 4, 8 the
    key "4" does not put its count at position 4 (boundary 8); the count
    goes to the bucket whose boundary is 4. *)
Lemma sparse_by_position_fails :
  __init__ sample_fetch "EXPONENTIAL"
    (Mapping (<["values" := sparse_items]> ∅)) default_revision
  = Ok sparse_sample ∧
  ¬ sparse_by_position [0; 1; 2; 4; 8]%Z sparse_items (buckets sparse_sample).
Proof.
  split; [reflexivity|]. intros H.
  destruct (H 4 8%Z eq_refl) as [H1 _].
  specialize (H1 "4" (of_Z 7)). discriminate H1; [left|reflexivity].
Qed.

Lemma sparse_by_label_witness :
  index (buckets sparse_sample)
    = histogram_tools.ranges (definition sparse_sample) ∧
  ∀ (i : nat) b,
    histogram_tools.ranges (definition sparse_sample) !! i = Some b →
    (∀ k v, (k, v) ∈ sparse_items → int k = Ok b → is_nan v = false →
       (∀ k' v', (k', v') ∈ sparse_items → int k' = Ok b → v' = v) →
       buckets sparse_sample !! i = Some (b, v)) ∧
    ((∀ k v, (k, v) ∈ sparse_items → int k ≠ Ok b) →
     buckets sparse_sample !! i = Some (b, of_Z 0)).
Proof.
  apply (sparse_by_label sample_fetch "EXPONENTIAL" default_revision
           (<["values" := sparse_items]> ∅) sparse_items sparse_sample).
  - reflexivity.
  - reflexivity.
Defined.

Lemma trailing_metadata_ignored_witness :
  __init__ sample_fetch "SAMPLE"
    (Dense (counts [1; 1; 0]%Z ++ counts [2; 0; 0; -1; -1]%Z)) default_revision
  = __init__ sample_fetch "SAMPLE" (Dense (counts [1; 1; 0]%Z)) default_revision
  ∧
  __init__ sample_fetch "SAMPLE"
    (DenseSeries (buckets (sample 1 1 0) ++
                  zip [3; 4; 5; 6; 7]%Z (counts [2; 0; 0; -1; -1]%Z)))
    default_revision
  = __init__ sample_fetch "SAMPLE" (DenseSeries (buckets (sample 1 1 0)))
      default_revision.
Proof.
  apply (trailing_metadata_ignored sample_fetch "SAMPLE" default_revision
           tip linear3); reflexivity.
Defined.

Lemma unmatched_key_dropped_witness :
  ∃ h,
    __init__ sample_fetch "EXPONENTIAL"
      (Mapping (<["values" := sparse_items ++ ("3", of_Z 9) :: []]> ∅))
      default_revision = Ok h ∧
    __init__ sample_fetch "EXPONENTIAL"
      (Mapping (<["values" := sparse_items ++ []]>
                  (<["values" := sparse_items ++ ("3", of_Z 9) :: []]> ∅)))
      default_revision = Ok h ∧
    index (buckets h) = [0; 1; 2; 4; 8]%Z ∧
    ∀ (i : nat) b, [0; 1; 2; 4; 8]%Z !! i = Some b →
      (∀ k' v', (k', v') ∈ sparse_items ++ [] → int k' ≠ Ok b) →
      buckets h !! i = Some (b, of_Z 0).
Proof.
  apply (unmatched_key_dropped sample_fetch "EXPONENTIAL" default_revision
           tip (schema "exponential" [0; 1; 2; 4; 8]%Z)
           (<["values" := sparse_items ++ ("3", of_Z 9) :: []]> ∅)
           sparse_items "3" (of_Z 9) [] 3%Z).
  - reflexivity.
  - reflexivity.
  - reflexivity.
  - repeat constructor; simpl; eexists; reflexivity.
  - reflexivity.
  - by apply (bool_decide_unpack _).
Defined.

Lemma buckets_follow_schema_witness : follows_schema (sample 2 2 0).
Proof.
  apply (buckets_follow_schema sample_fetch no_align (sample 2 2 0)).
  - right. exists (sample 1 1 0), (sample 1 1 0). reflexivity.
  - reflexivity.
Defined.

(** C7.  The sum of two histograms with identical boundaries is not always
    the elementwise sum: RESCALED was resolved at an older revision, where its
    boundaries were 0, 1, 2; the sum resolves the name again at the default
    revision, where they are 0, 5, 10, lays the counts out on these and keeps
    only the one at 0. *)
Lemma add_resolves_again :
  __init__ sample_fetch "RESCALED" (Dense (counts [1; 2; 3]%Z)) older_revision
  = Ok (histogram_of linear3 "RESCALED" [1; 2; 3]%Z) ∧
  __add__ sample_fetch no_align
    (histogram_of linear3 "RESCALED" [1; 2; 3]%Z)
    (histogram_of linear3 "RESCALED" [1; 2; 3]%Z)
  = Ok rescaled_sum ∧
  ¬ ∃ h,
      __add__ sample_fetch no_align
        (histogram_of linear3 "RESCALED" [1; 2; 3]%Z)
        (histogram_of linear3 "RESCALED" [1; 2; 3]%Z) = Ok h ∧
      combined (histogram_of linear3 "RESCALED" [1; 2; 3]%Z)
               (histogram_of linear3 "RESCALED" [1; 2; 3]%Z) h.
Proof.
  split; [reflexivity|]. split; [reflexivity|].
  intros (h & Hadd & _ & Hindex & _).
  vm_compute in Hadd. injection Hadd as <-. discriminate Hindex.
Qed.

Lemma dense_positional_witness :
  ∃ h, __init__ sample_fetch "SAMPLE" (Dense (counts [1; 1; 0]%Z))
         default_revision = Ok h ∧
       definition h = linear3 ∧ kind h = histogram_tools.kind linear3 ∧
       name h = "SAMPLE" ∧
       index (buckets h) = histogram_tools.ranges linear3 ∧
       values (buckets h) = counts [1; 1; 0]%Z.
Proof.
  apply (dense_positional sample_fetch "SAMPLE" default_revision tip linear3);
    reflexivity.
Defined.

Lemma dense_wrong_length_witness :
  __init__ sample_fetch "SAMPLE"
    (Dense (counts [1; 2; 3; 4; 5; 6; 7; 8; 9]%Z)) default_revision
  = Raise ValueError.
Proof.
  apply (dense_wrong_length sample_fetch "SAMPLE" default_revision tip linear3).
  - reflexivity.
  - reflexivity.
  - simpl. lia.
  - simpl. lia.
  - simpl. lia.
Defined.

Lemma startup_prefix_witness :
  __init__ sample_fetch ("STARTUP_" +:+ "SAMPLE") (Dense (counts [1; 1; 0]%Z))
    default_revision =
    (λ h, {| definition := definition h; kind := kind h;
             name := "STARTUP_" +:+ "SAMPLE"; buckets := buckets h |})
      <$> __init__ sample_fetch "SAMPLE" (Dense (counts [1; 1; 0]%Z))
            default_revision.
Proof.
  apply (startup_prefix sample_fetch "SAMPLE"). reflexivity.
Defined.


Lemma sparse_no_nan_witness :
  Forall (λ x, is_nan x = false) (values (buckets sparse_sample)).
Proof.
  apply (sparse_no_nan sample_fetch "EXPONENTIAL" default_revision
           (<["values" := sparse_items]> ∅) sparse_sample).
  reflexivity.
Defined.

Lemma sparse_last_key_wins_witness :
  buckets
    (histogram_of (schema "exponential" [0; 1; 2; 4; 8]%Z) "EXPONENTIAL"
       [0; 0; 0; 9; 0]%Z) !! 3
  = Some (4%Z, of_Z 9).
Proof.
  change (Some (4%Z, @of_Z numpy.num _ 9))
    with (Some (4%Z, if is_nan (@of_Z numpy.num _ 9)
                     then @of_Z numpy.num _ 0 else of_Z 9)).
  apply (sparse_last_key_wins sample_fetch "EXPONENTIAL" default_revision
           (<["values" := sparse_items ++ (" 4", of_Z 9) :: []]> ∅)
           sparse_items " 4" (of_Z 9) []).
  - reflexivity.
  - reflexivity.
  - reflexivity.
  - intros k' v' Hin. by apply elem_of_nil in Hin.
  - reflexivity.
Defined.

Lemma dense_series_by_label_witness :
  (∀ (j : nat) c,
     shuffled !! j = Some (1%Z, c) → buckets relabelled !! 1 = Some (1%Z, c)) ∧
  (1%Z ∉ index shuffled → buckets relabelled !! 1 = Some (1%Z, NaN)).
Proof.
  apply (dense_series_by_label sample_fetch "SAMPLE" default_revision shuffled).
  - reflexivity.
  - reflexivity.
  - by apply (bool_decide_unpack _).
  - reflexivity.
Defined.

Lemma add_of_constructed_witness :
  ∃ h, __add__ sample_fetch no_align (sample 1 1 0) (sample 0 2 5) = Ok h ∧
       combined (sample 1 1 0) (sample 0 2 5) h ∧
       definition h = definition (sample 1 1 0) ∧ kind h = kind (sample 1 1 0) ∧
       follows_schema h.
Proof.
  apply (add_of_constructed sample_fetch no_align "SAMPLE"
           (Dense (counts [1; 1; 0]%Z)) (Dense (counts [0; 2; 5]%Z)));
    reflexivity.
Defined.

Lemma add_commutes_witness :
  __add__ sample_fetch no_align
    (histogram_of linear3 "STARTUP_SAMPLE" [0; 2; 5]%Z) (sample 1 1 0) =
    (λ h, {| definition := definition h; kind := kind h;
             name := name (histogram_of linear3 "STARTUP_SAMPLE" [0; 2; 5]%Z);
             buckets := buckets h |})
      <$> __add__ sample_fetch no_align (sample 1 1 0)
            (histogram_of linear3 "STARTUP_SAMPLE" [0; 2; 5]%Z).
Proof.
  apply (add_commutes sample_fetch no_align (sample 1 1 0)
           (histogram_of linear3 "STARTUP_SAMPLE" [0; 2; 5]%Z)); reflexivity.
Defined.

Lemma add_succeeds_iff_witness :
  (∃ h, __add__ sample_fetch no_align (sample 1 1 0) (sample 0 2 5) = Ok h) ↔
  ∃ doc d, sample_fetch default_revision = Ok doc ∧
           doc !! strip_startup (name (sample 1 1 0)) = Some d.
Proof.
  apply (add_succeeds_iff sample_fetch no_align (sample 1 1 0) (sample 0 2 5)).
  - reflexivity.
  - by apply (bool_decide_unpack _).
Defined.

Lemma add_reindexes_witness :
  (∀ (j : nat) ca cb,
     buckets (histogram_of linear3 "RESCALED" [1; 2; 3]%Z) !! j
       = Some (5%Z, ca) →
     buckets (histogram_of linear3 "RESCALED" [1; 2; 3]%Z) !! j
       = Some (5%Z, cb) →
     buckets
       rescaled_sum !! 1
     = Some (5%Z, nadd ca cb)) ∧
  (5%Z ∉ index (buckets (histogram_of linear3 "RESCALED" [1; 2; 3]%Z)) →
   buckets
     rescaled_sum !! 1
   = Some (5%Z, NaN)).
Proof.
  apply (add_reindexes sample_fetch no_align
           (histogram_of linear3 "RESCALED" [1; 2; 3]%Z)
           (histogram_of linear3 "RESCALED" [1; 2; 3]%Z)
           tip (schema "linear" [0; 5; 10]%Z)).
  - reflexivity.
  - by apply (bool_decide_unpack _).
  - reflexivity.
  - reflexivity.
  - reflexivity.
  - reflexivity.
  - reflexivity.
Defined.

(** ** The address of the schema document: properties *)

Lemma append_assoc (s1 s2 s3 : string) :
  (s1 +:+ s2) +:+ s3 = s1 +:+ (s2 +:+ s3).
Proof.
  induction s1 as [|c s1 IH]; [done|].
  change (String c ((s1 +:+ s2) +:+ s3) = String c (s1 +:+ (s2 +:+ s3))).
  by rewrite IH.
Qed.

Lemma append_cons c (s1 s2 : string) :
  String c s1 +:+ s2 = String c (s1 +:+ s2).
Proof. reflexivity. Qed.

Lemma prefix_cons a b s1 s2 :
  String.prefix (String a s1) (String b s2)
  = if ascii_dec a b then String.prefix s1 s2 else false.
Proof. reflexivity. Qed.

(** No occurrence of "rev" runs over a slash. *)
Lemma prefix_rev_slash s1 s2 :
  String.prefix "rev" (s1 +:+ String "/" s2) = String.prefix "rev" s1.
Proof.
  destruct s1 as [|c1 s1]; [reflexivity|].
  rewrite append_cons, !prefix_cons. destruct (ascii_dec "r" c1); [|done].
  destruct s1 as [|c2 s1]; [reflexivity|].
  rewrite append_cons, !prefix_cons. destruct (ascii_dec "e" c2); [|done].
  destruct s1 as [|c3 s1]; [reflexivity|].
  rewrite append_cons, !prefix_cons. destruct (ascii_dec "v" c3); [|done].
  by destruct s1.
Qed.

Lemma replace_rev_slash s1 s2 :
  occurs "rev" s1 = false →
  replace_from "rev" "raw-file" 0 (s1 +:+ String "/" s2)
  = s1 +:+ String "/" (replace_from "rev" "raw-file" 0 s2).
Proof.
  induction s1 as [|c s1 IH]; [done|].
  cbn [occurs]. intros [Hp Ho]%orb_false_iff.
  change (String c s1 +:+ String "/" s2) with (String c (s1 +:+ String "/" s2)).
  cbn [replace_from].
  change (String c (s1 +:+ String "/" s2)) with (String c s1 +:+ String "/" s2).
  rewrite prefix_rev_slash, Hp. cbn [append]. by rewrite IH.
Qed.

Lemma replace_rev_head s :
  replace_from "rev" "raw-file" 0 ("rev" +:+ String "/" s)
  = "raw-file" +:+ String "/" (replace_from "rev" "raw-file" 0 s).
Proof. reflexivity. Qed.

(** X22.  For a revision of the form [base/rev/id], where "rev" occurs neither
    in [base] nor in [id], the schema document is fetched from
    [base/raw-file/id/toolkit/components/telemetry/Histograms.json]. *)
Theorem uri_of_revision base id :
  occurs "rev" base = false → occurs "rev" id = false →
  uri (base +:+ "/rev/" +:+ id)
  = base +:+ "/raw-file/" +:+ id
      +:+ "/toolkit/components/telemetry/Histograms.json".
Proof.
  intros Hb Hi. unfold uri, replace.
  rewrite !append_assoc.
  change ("/rev/" +:+ id +:+ "/toolkit/components/telemetry/Histograms.json")
    with (String "/" ("rev" +:+ String "/"
            (id +:+ String "/" "toolkit/components/telemetry/Histograms.json"))).
  rewrite (replace_rev_slash base) by done. f_equal.
  rewrite replace_rev_head, (replace_rev_slash id) by done. reflexivity.
Qed.

Lemma uri_of_revision_witness :
  uri ("https://hg.mozilla.org/mozilla-central" +:+ "/rev/" +:+ "37ddc5e2eb72")
  = "https://hg.mozilla.org/mozilla-central" +:+ "/raw-file/" +:+ "37ddc5e2eb72"
      +:+ "/toolkit/components/telemetry/Histograms.json".
Proof.
  apply (uri_of_revision "https://hg.mozilla.org/mozilla-central"
           "37ddc5e2eb72"); reflexivity.
Defined.
